(** * POV Nexus: the generation loop, the two content sources and the view
    projection of the gallery, embedded from the TypeScript sources.

    - [types.ts], [constants.ts]            : section "Data model"
    - [services/geminiService.ts]           : module [Service]
    - [App.tsx] (filter, pagination)        : module [View]
    - [App.tsx] (state, effects, handlers)  : module [App]

    JavaScript numbers that hold ids, counts and indices are modelled as
    natural numbers; [Math.random()] is modelled as an exact fraction of
    [0, 1); a promise in flight is an entry of a list in the state, settled
    by an event that carries the remote answer. *)

From Stdlib Require Import ZArith QArith Qround Lia List Bool String Ascii DecimalString.
From Stdlib Require Import DecimalNat.
From stdpp Require Import base option list strings gmap.

Local Open Scope string_scope.
Local Open Scope list_scope.
Local Open Scope nat_scope.

(** ** Data model ([types.ts]) *)

Inductive Category :=
  | Action | Adventure | SciFi | Fantasy | Cyberpunk | Neon | Military
  | Supernatural | Horror | Nature | Underwater | UrbanLife | Space | Sports
  | Historical | Mythological | Surreal | Dreamlike | Architectural
  | EverydayLife.

(** The string value of each member of the [Category] enum. *)
Definition Category_value (c : Category) : string :=
  match c with
  | Action => "Action" | Adventure => "Adventure" | SciFi => "Sci-Fi"
  | Fantasy => "Fantasy" | Cyberpunk => "Cyberpunk" | Neon => "Neon"
  | Military => "Military" | Supernatural => "Supernatural"
  | Horror => "Horror" | Nature => "Nature" | Underwater => "Underwater"
  | UrbanLife => "Urban Life" | Space => "Space" | Sports => "Sports"
  | Historical => "Historical" | Mythological => "Mythological"
  | Surreal => "Surreal" | Dreamlike => "Dreamlike"
  | Architectural => "Architectural" | EverydayLife => "Everyday Life"
  end.

(** [interface SceneConcept]: optional fields are [option]s, [None] being
    JavaScript's [undefined]. *)
Record SceneConcept := mkScene {
  id : nat;
  description : string;
  category : string;
  lighting : string;
  camera : string;
  thumbnailUrl : option string;
  isGeneratingThumbnail : option bool;
  highResUrl : option string;
  isGeneratingHighRes : option bool;
  isFavorite : option bool
}.

#[global] Instance SceneConcept_eq_dec : EqDecision SceneConcept.
Proof. solve_decision. Defined.

(** [Omit<SceneConcept, 'id'>], the type the parsed answer is cast to. *)
Record SceneItem := mkItem {
  item_description : string;
  item_category : string;
  item_lighting : string;
  item_camera : string;
  item_thumbnailUrl : option string;
  item_isGeneratingThumbnail : option bool;
  item_highResUrl : option string;
  item_isGeneratingHighRes : option bool;
  item_isFavorite : option bool
}.

Record GenerationStats := mkStats {
  totalGenerated : nat;
  batchesCompleted : nat;
  isGenerating : bool;
  startTime : option nat;
  elapsedTime : nat
}.

Inductive ToastType := success | error | info.

Record ToastMessage := mkToast { message : string; type : ToastType }.

(** Truthiness of the values the code tests. *)
Definition truthy_flag (b : option bool) : bool := default false b.

Definition truthy_string (s : option string) : bool :=
  match s with
  | Some (String _ _) => true
  | _ => false
  end.

(** ** Constants ([constants.ts]) *)

Definition BATCH_SIZE : nat := 50.
Definition TOTAL_GOAL : nat := 1000.
Definition ITEMS_PER_PAGE : nat := 10.

Definition CATEGORIES_LIST : list Category :=
  [ Neon; Cyberpunk; SciFi; Fantasy; Action; Adventure; Military;
    Supernatural; Horror; Nature; Underwater; UrbanLife; Space; Sports;
    Historical; Mythological; Surreal; Dreamlike; Architectural;
    EverydayLife ].

Module PROMPT_COMPONENTS.
Definition moods : list string :=
  [ "peaceful"; "dreamlike"; "heroic"; "enigmatic"; "surreal";
    "mysterious"; "tense"; "melancholic"; "awe-inspiring"; "epic";
    "electric"; "hazy" ].

Definition locations : list string :=
  [ "floating sky temple"; "rainy city street"; "haunted library";
    "crystal desert"; "volcanic cliffs"; "futuristic lab";
    "abandoned starship corridor"; "neon-lit alley"; "underwater reef";
    "desert battlefield"; "orbital station window"; "ancient ruins";
    "misty forest"; "glowing cave"; "stormy ocean deck";
    "dense jungle"; "cosmic nebula"; "snowy mountain pass";
    "holographic market"; "bioluminescent bay" ].

Definition actions : list string :=
  [ "shielding from bright energy"; "diving deeper into darkness";
    "touching ancient symbols"; "navigating collapsing terrain";
    "climbing a massive structure"; "observing distant lights";
    "holding a futuristic device"; "running from unseen danger";
    "opening a mysterious door"; "stepping through a portal";
    "approaching a towering creature"; "floating in zero gravity";
    "reaching toward a glowing object"; "emerging from thick fog";
    "exploring an unknown world" ].

Definition styles : list string :=
  [ "Van Gogh x Cyberpunk"; "Klimt x Sci-Fi"; "Rembrandt x Noir";
    "Synthwave x Ukiyo-e"; "Bauhaus x Industrial"; "Gothic x Neon";
    "Abstract Expressionism x Space"; "Art Deco x Future" ].
End PROMPT_COMPONENTS.

Definition LOCATION_CATEGORY_MAP : gmap string string :=
  list_to_map
    [ ("floating sky temple", "Fantasy");
      ("rainy city street", "Urban Life");
      ("haunted library", "Horror");
      ("crystal desert", "Surreal");
      ("volcanic cliffs", "Adventure");
      ("futuristic lab", "Sci-Fi");
      ("abandoned starship corridor", "Sci-Fi");
      ("neon-lit alley", "Neon");
      ("underwater reef", "Underwater");
      ("desert battlefield", "Military");
      ("orbital station window", "Space");
      ("ancient ruins", "Historical");
      ("misty forest", "Nature");
      ("glowing cave", "Nature");
      ("stormy ocean deck", "Adventure");
      ("dense jungle", "Nature");
      ("cosmic nebula", "Space");
      ("snowy mountain pass", "Nature");
      ("holographic market", "Cyberpunk");
      ("bioluminescent bay", "Neon") ].

(** ** JavaScript helpers *)

(** [Math.random()]: a number of [0, 1), here the exact fraction
    [numer / (numer + gap + 1)]. *)
Record Random := mkRandom { numer : nat; gap : nat }.

(** [Math.floor(Math.random() * n)]. *)
Definition floor_scaled (r : Random) (n : nat) : nat :=
  (numer r * n) / (numer r + gap r + 1).

(** [arr[i]] used inside a template literal or as a property key: an index
    out of range gives [undefined], which both uses turn into the text
    "undefined". *)
Definition at_index (arr : list string) (i : nat) : string :=
  default "undefined" (arr !! i).

(** [`${n}`] for a non-negative integer. *)
Definition number_to_string (n : nat) : string :=
  NilEmpty.string_of_uint (Nat.to_uint n).

(** ** The content sources ([services/geminiService.ts]) *)

Module Service.

(** What [JSON.parse(rawText)] evaluates to. *)
Inductive Parsed :=
  | SyntaxError                      (* the text is not JSON: parse throws *)
  | NotAnArray                       (* a JSON value without a [map] method *)
  | ParsedArray (items : list SceneItem).

(** The remote answer to [generateContent] for a batch. *)
Inductive BatchReply :=
  | CallRejected                                   (* network, quota, permission *)
  | Response (text : option string) (parsed : Parsed).

(** Outcome of an async function: the promise is fulfilled or rejected. *)
Inductive Outcome (A : Type) :=
  | Fulfilled (a : A)
  | Thrown (msg : string).
Arguments Fulfilled {A} a.
Arguments Thrown {A} msg.

(** [{ ...item, id: startId + index }]. *)
Definition with_id (item : SceneItem) (n : nat) : SceneConcept :=
  {| id := n;
     description := item_description item;
     category := item_category item;
     lighting := item_lighting item;
     camera := item_camera item;
     thumbnailUrl := item_thumbnailUrl item;
     isGeneratingThumbnail := item_isGeneratingThumbnail item;
     highResUrl := item_highResUrl item;
     isGeneratingHighRes := item_isGeneratingHighRes item;
     isFavorite := item_isFavorite item |}.

(** [parsedData.map((item, index) => ({ ...item, id: startId + index }))]. *)
Definition number_items (startId : nat) (parsedData : list SceneItem)
  : list SceneConcept :=
  imap (fun index item => with_id item (startId + index)) parsedData.

(** [generateSceneBatch(startId, count, targetCategories)], given whether
    [process.env.API_KEY] is set and what the remote service answers.
    [count] and the categories only enter the prompt text.
    [batch_response] is the part that runs once the awaited answer is
    there: the body of the [try] block and its rethrowing [catch]. *)
Definition batch_response (startId : nat) (reply : BatchReply)
  : Outcome (list SceneConcept) :=
  match reply with
  | CallRejected => Thrown "generateContent"
  | Response rawText parsed =>
      if negb (truthy_string rawText) then Fulfilled []
      else
        match parsed with
        | SyntaxError => Thrown "SyntaxError"
        | NotAnArray => Thrown "TypeError"
        | ParsedArray parsedData => Fulfilled (number_items startId parsedData)
        end
  end.

Definition generateSceneBatch (API_KEY : bool) (startId count : nat)
    (reply : BatchReply) : Outcome (list SceneConcept) :=
  if negb API_KEY then Thrown "API Key is missing."
  else batch_response startId reply.

(** [LOCATION_CATEGORY_MAP[location] || 'General']. *)
Definition category_of (location : string) : string :=
  match LOCATION_CATEGORY_MAP !! location with
  | Some (String a s) => String a s
  | _ => "General"
  end.

Definition placeholderUrl (seed : nat) : string :=
  "https://picsum.photos/seed/" +:+ number_to_string seed +:+ "/400/225".

Definition lightingOptions : list string :=
  [ "Neon"; "Bioluminescent"; "Volumetric"; "Dusk"; "Cinematic" ].

Definition describe (mood location action style : string) : string :=
  "POV in a " +:+ mood +:+ " scene set in " +:+ location +:+ ", "
    +:+ action +:+ ". Style: " +:+ style +:+ ".".

(** The body of the [for] loop of [generateCuratedBatch] at index [i];
    [rand k] is the [k]-th call of [Math.random()] of the whole run, the
    body makes five of them. *)
Definition curated_scene (startId : nat) (rand : nat -> Random) (i : nat)
  : SceneConcept :=
  let pick k arr := at_index arr (floor_scaled (rand (5 * i + k)) (length arr)) in
  let mood := pick 0 PROMPT_COMPONENTS.moods in
  let location := pick 1 PROMPT_COMPONENTS.locations in
  let action := pick 2 PROMPT_COMPONENTS.actions in
  let style := pick 3 PROMPT_COMPONENTS.styles in
  let category := category_of location in
  let description := describe mood location action style in
  let lighting := pick 4 lightingOptions in
  let camera := "First-Person POV" in
  let seed := startId + i in
  {| id := startId + i;
     description := description;
     category := category;
     lighting := lighting;
     camera := camera;
     thumbnailUrl := Some (placeholderUrl seed);
     isGeneratingThumbnail := None;
     highResUrl := None;
     isGeneratingHighRes := None;
     isFavorite := None |}.

(** [for (let i = 0; i < count; i++) { ...; scenes.push(...) }], with
    [todo] iterations left. *)
Fixpoint curated_loop (startId : nat) (rand : nat -> Random)
    (i todo : nat) (scenes : list SceneConcept) : list SceneConcept :=
  match todo with
  | 0 => scenes
  | S todo' =>
      curated_loop startId rand (S i) todo' (scenes ++ [curated_scene startId rand i])
  end.

Definition generateCuratedBatch (startId count : nat) (rand : nat -> Random)
  : list SceneConcept :=
  curated_loop startId rand 0 count [].

(** One part of an image answer: [part.inlineData], if any, with its
    [mimeType] and [data]. *)
Record Part := mkPart { inlineData : option (string * string) }.

(** The remote answer to [generateContent] for an image:
    [response.candidates?.[0]?.content?.parts], if any. *)
Inductive ImageReply :=
  | ImageRejected (msg : string)
  | ImageResponse (parts : option (list Part)).

(** The [for] loop looking for the first part with image data. *)
Fixpoint first_image (parts : list Part) : option string :=
  match parts with
  | [] => None
  | part :: rest =>
      match inlineData part with
      | Some (mimeType, String a d) =>
          Some ("data:" +:+ mimeType +:+ ";base64," +:+ String a d)
      | _ => first_image rest
      end
  end.

(** [generateSceneThumbnail(description)]; [generateHighQualityImage] has
    the same body. [image_response] is the part after the await. *)
Definition image_response (reply : ImageReply) : Outcome (option string) :=
  match reply with
  | ImageRejected msg => Thrown msg
  | ImageResponse parts => Fulfilled (first_image (default [] parts))
  end.

Definition generateSceneThumbnail (API_KEY : bool) (reply : ImageReply)
  : Outcome (option string) :=
  if negb API_KEY then Thrown "API Key is missing"
  else image_response reply.

Definition generateHighQualityImage := generateSceneThumbnail.

End Service.

(** ** Object spreads over a scene: [{ ...s, field: value }] *)

Definition with_isGeneratingThumbnail (b : bool) (s : SceneConcept) : SceneConcept :=
  {| id := id s; description := description s; category := category s;
     lighting := lighting s; camera := camera s;
     thumbnailUrl := thumbnailUrl s;
     isGeneratingThumbnail := Some b;
     highResUrl := highResUrl s;
     isGeneratingHighRes := isGeneratingHighRes s;
     isFavorite := isFavorite s |}.

Definition with_thumbnailUrl (url : string) (s : SceneConcept) : SceneConcept :=
  {| id := id s; description := description s; category := category s;
     lighting := lighting s; camera := camera s;
     thumbnailUrl := Some url;
     isGeneratingThumbnail := isGeneratingThumbnail s;
     highResUrl := highResUrl s;
     isGeneratingHighRes := isGeneratingHighRes s;
     isFavorite := isFavorite s |}.

Definition with_isGeneratingHighRes (b : bool) (s : SceneConcept) : SceneConcept :=
  {| id := id s; description := description s; category := category s;
     lighting := lighting s; camera := camera s;
     thumbnailUrl := thumbnailUrl s;
     isGeneratingThumbnail := isGeneratingThumbnail s;
     highResUrl := highResUrl s;
     isGeneratingHighRes := Some b;
     isFavorite := isFavorite s |}.

Definition with_highResUrl (url : string) (s : SceneConcept) : SceneConcept :=
  {| id := id s; description := description s; category := category s;
     lighting := lighting s; camera := camera s;
     thumbnailUrl := thumbnailUrl s;
     isGeneratingThumbnail := isGeneratingThumbnail s;
     highResUrl := Some url;
     isGeneratingHighRes := isGeneratingHighRes s;
     isFavorite := isFavorite s |}.

(** [prev.map(s => s.id === id ? f(s) : s)], the shape of every per-record
    update of the collection. *)
Definition update_by_id (k : nat) (f : SceneConcept -> SceneConcept)
    (prev : list SceneConcept) : list SceneConcept :=
  map (fun s => if Nat.eqb (id s) k then f s else s) prev.

(** [hay.includes(needle)]. *)
Fixpoint includes (needle hay : string) : bool :=
  String.prefix needle hay ||
  match hay with
  | EmptyString => false
  | String _ rest => includes needle rest
  end.

(** ** The view projection ([App.tsx], "Pagination Logic") *)

Module View.

(** [Math.ceil(a / b)] on a non-negative integer [a] and a positive
    integer constant [b], through the exact quotient. *)
Definition Math_ceil_quot (a b : nat) : nat :=
  Z.to_nat (Qceiling (Z.of_nat a # Pos.of_nat b)).

(** [arr.slice(start, end)] for integer arguments: a negative argument
    counts from the end, both are clamped to the array. *)
Definition slice {A : Type} (arr : list A) (start end_ : Z) : list A :=
  let len := Z.of_nat (length arr) in
  let k := if (start <? 0)%Z then Z.max (len + start) 0 else Z.min start len in
  let final := if (end_ <? 0)%Z then Z.max (len + end_) 0 else Z.min end_ len in
  take (Z.to_nat (final - k)) (drop (Z.to_nat k) arr).

(** [showFavorites ? scenes.filter(s => s.isFavorite) : scenes]. *)
Definition filteredScenes (showFavorites : bool) (scenes : list SceneConcept)
  : list SceneConcept :=
  if showFavorites then List.filter (fun s => truthy_flag (isFavorite s)) scenes
  else scenes.

Definition totalPages (filtered : list SceneConcept) : nat :=
  Math_ceil_quot (length filtered) ITEMS_PER_PAGE.

Definition displayedScenes (filtered : list SceneConcept) (currentPage : nat)
  : list SceneConcept :=
  slice filtered
    ((Z.of_nat currentPage - 1) * Z.of_nat ITEMS_PER_PAGE)
    (Z.of_nat currentPage * Z.of_nat ITEMS_PER_PAGE).

(** [favoriteCount] handed to the dashboard. *)
Definition favoriteCount (scenes : list SceneConcept) : nat :=
  length (List.filter (fun s => truthy_flag (isFavorite s)) scenes).

(** The update of [handleToggleFavorite]:
    [prev.map(s => s.id === id ? { ...s, isFavorite: !s.isFavorite } : s)]. *)
Definition flip_favorite (s : SceneConcept) : SceneConcept :=
  {| id := id s; description := description s; category := category s;
     lighting := lighting s; camera := camera s;
     thumbnailUrl := thumbnailUrl s;
     isGeneratingThumbnail := isGeneratingThumbnail s;
     highResUrl := highResUrl s;
     isGeneratingHighRes := isGeneratingHighRes s;
     isFavorite := Some (negb (truthy_flag (isFavorite s))) |}.

Definition toggleFavorite (k : nat) (prev : list SceneConcept)
  : list SceneConcept :=
  update_by_id k flip_favorite prev.

End View.

(** ** The application container ([App.tsx]) *)

Module App.
Import Service.

(** [window.aistudio] and [process.env], as the host environment answers. *)
Record Host := mkHost {
  hasSelectedApiKey : bool;   (* window.aistudio?.hasSelectedApiKey() *)
  dialogSelects : bool;       (* openSelectKey(), opened now, ends with a key *)
  API_KEY : bool              (* process.env.API_KEY is set *)
}.

(** One run of the generation effect whose [generateSceneBatch] is awaited:
    the arguments of the call and the [isMounted] variable of its closure. *)
Record BatchCall := mkBatchCall {
  call_startId : nat;
  call_count : nat;
  isMounted : bool
}.

(** A [handleGenerateImage] awaiting [generateSceneThumbnail]; [thumb_owner]
    is the page loader that awaits it, if one does. *)
Record ThumbCall := mkThumbCall {
  thumb_id : nat;
  thumb_description : string;
  thumb_owner : option nat
}.

(** A [handleGeneratePageThumbnails] suspended at its [await]: the calls it
    waits for and the scenes of its snapshot still to visit, by chunk. *)
Record PageLoad := mkPageLoad {
  load_key : nat;
  load_waiting : nat;
  load_rest : list (list SceneConcept);
  load_done : option ToastMessage
}.

Record State := mkState {
  scenes : list SceneConcept;
  showFavorites : bool;
  selectedScene : option SceneConcept;
  currentPage : nat;
  toasts : list ToastMessage;
  stats : GenerationStats;
  stopRef : bool;
  host : Host;
  batchCalls : list BatchCall;
  batchRequests : nat;                (* batch requests sent so far *)
  thumbCalls : list ThumbCall;
  highResCalls : list SceneConcept;   (* each with its captured [selectedScene] *)
  pageLoads : list PageLoad;
  pageLoadsStarted : nat
}.

Definition initial (h : Host) : State :=
  {| scenes := []; showFavorites := false; selectedScene := None;
     currentPage := 1; toasts := [];
     stats := {| totalGenerated := 0; batchesCompleted := 0;
                 isGenerating := false; startTime := None; elapsedTime := 0 |};
     stopRef := false; host := h;
     batchCalls := []; batchRequests := 0; thumbCalls := [];
     highResCalls := []; pageLoads := []; pageLoadsStarted := 0 |}.

(** *** State setters *)

Definition setScenes (f : list SceneConcept -> list SceneConcept) (s : State) : State :=
  mkState (f (scenes s)) (showFavorites s) (selectedScene s) (currentPage s)
    (toasts s) (stats s) (stopRef s) (host s) (batchCalls s) (batchRequests s)
    (thumbCalls s) (highResCalls s) (pageLoads s) (pageLoadsStarted s).

Definition setShowFavorites (b : bool) (s : State) : State :=
  mkState (scenes s) b (selectedScene s) (currentPage s)
    (toasts s) (stats s) (stopRef s) (host s) (batchCalls s) (batchRequests s)
    (thumbCalls s) (highResCalls s) (pageLoads s) (pageLoadsStarted s).

Definition setSelectedScene (f : option SceneConcept -> option SceneConcept)
    (s : State) : State :=
  mkState (scenes s) (showFavorites s) (f (selectedScene s)) (currentPage s)
    (toasts s) (stats s) (stopRef s) (host s) (batchCalls s) (batchRequests s)
    (thumbCalls s) (highResCalls s) (pageLoads s) (pageLoadsStarted s).

Definition setCurrentPage (f : nat -> nat) (s : State) : State :=
  mkState (scenes s) (showFavorites s) (selectedScene s) (f (currentPage s))
    (toasts s) (stats s) (stopRef s) (host s) (batchCalls s) (batchRequests s)
    (thumbCalls s) (highResCalls s) (pageLoads s) (pageLoadsStarted s).

Definition addToast (msg : string) (ty : ToastType) (s : State) : State :=
  mkState (scenes s) (showFavorites s) (selectedScene s) (currentPage s)
    (toasts s ++ [mkToast msg ty]) (stats s) (stopRef s) (host s)
    (batchCalls s) (batchRequests s)
    (thumbCalls s) (highResCalls s) (pageLoads s) (pageLoadsStarted s).

Definition setStats (f : GenerationStats -> GenerationStats) (s : State) : State :=
  mkState (scenes s) (showFavorites s) (selectedScene s) (currentPage s)
    (toasts s) (f (stats s)) (stopRef s) (host s) (batchCalls s) (batchRequests s)
    (thumbCalls s) (highResCalls s) (pageLoads s) (pageLoadsStarted s).

Definition setStopRef (b : bool) (s : State) : State :=
  mkState (scenes s) (showFavorites s) (selectedScene s) (currentPage s)
    (toasts s) (stats s) b (host s) (batchCalls s) (batchRequests s)
    (thumbCalls s) (highResCalls s) (pageLoads s) (pageLoadsStarted s).

Definition setHost (f : Host -> Host) (s : State) : State :=
  mkState (scenes s) (showFavorites s) (selectedScene s) (currentPage s)
    (toasts s) (stats s) (stopRef s) (f (host s)) (batchCalls s) (batchRequests s)
    (thumbCalls s) (highResCalls s) (pageLoads s) (pageLoadsStarted s).

Definition setBatchCalls (f : list BatchCall -> list BatchCall) (s : State) : State :=
  mkState (scenes s) (showFavorites s) (selectedScene s) (currentPage s)
    (toasts s) (stats s) (stopRef s) (host s) (f (batchCalls s)) (batchRequests s)
    (thumbCalls s) (highResCalls s) (pageLoads s) (pageLoadsStarted s).

Definition countBatchRequest (s : State) : State :=
  mkState (scenes s) (showFavorites s) (selectedScene s) (currentPage s)
    (toasts s) (stats s) (stopRef s) (host s) (batchCalls s) (S (batchRequests s))
    (thumbCalls s) (highResCalls s) (pageLoads s) (pageLoadsStarted s).

Definition setThumbCalls (f : list ThumbCall -> list ThumbCall) (s : State) : State :=
  mkState (scenes s) (showFavorites s) (selectedScene s) (currentPage s)
    (toasts s) (stats s) (stopRef s) (host s) (batchCalls s) (batchRequests s)
    (f (thumbCalls s)) (highResCalls s) (pageLoads s) (pageLoadsStarted s).

Definition setHighResCalls (f : list SceneConcept -> list SceneConcept) (s : State) : State :=
  mkState (scenes s) (showFavorites s) (selectedScene s) (currentPage s)
    (toasts s) (stats s) (stopRef s) (host s) (batchCalls s) (batchRequests s)
    (thumbCalls s) (f (highResCalls s)) (pageLoads s) (pageLoadsStarted s).

Definition setPageLoads (f : list PageLoad -> list PageLoad) (s : State) : State :=
  mkState (scenes s) (showFavorites s) (selectedScene s) (currentPage s)
    (toasts s) (stats s) (stopRef s) (host s) (batchCalls s) (batchRequests s)
    (thumbCalls s) (highResCalls s) (f (pageLoads s)) (pageLoadsStarted s).

Definition countPageLoad (s : State) : State :=
  mkState (scenes s) (showFavorites s) (selectedScene s) (currentPage s)
    (toasts s) (stats s) (stopRef s) (host s) (batchCalls s) (batchRequests s)
    (thumbCalls s) (highResCalls s) (pageLoads s) (S (pageLoadsStarted s)).

(** [{ ...prev, isGenerating: b }] and the other spreads over the stats. *)
Definition with_isGenerating (b : bool) (prev : GenerationStats) : GenerationStats :=
  {| totalGenerated := totalGenerated prev;
     batchesCompleted := batchesCompleted prev;
     isGenerating := b;
     startTime := startTime prev;
     elapsedTime := elapsedTime prev |}.

Definition with_elapsed_tick (prev : GenerationStats) : GenerationStats :=
  {| totalGenerated := totalGenerated prev;
     batchesCompleted := batchesCompleted prev;
     isGenerating := isGenerating prev;
     startTime := startTime prev;
     elapsedTime := elapsedTime prev + 1 |}.

Definition with_batch_done (n : nat) (prev : GenerationStats) : GenerationStats :=
  {| totalGenerated := totalGenerated prev + n;
     batchesCompleted := batchesCompleted prev + 1;
     isGenerating := isGenerating prev;
     startTime := startTime prev;
     elapsedTime := elapsedTime prev |}.

(** [window.aistudio?.openSelectKey()]. *)
Definition openSelectKey (s : State) : State :=
  setHost (fun h => {| hasSelectedApiKey := hasSelectedApiKey h || dialogSelects h;
                       dialogSelects := dialogSelects h;
                       API_KEY := API_KEY h |}) s.

(** *** The generation worker *)

(** The [catch] branch of [generateStep], reached with [isMounted] true. *)
Definition batch_failed (s : State) : State :=
  addToast "Generation failed. Check console." error
    (setStats (with_isGenerating false) (setStopRef true s)).

(** [generateStep] from its start to its [await]. With no API key
    [generateSceneBatch] rejects before any request is sent, and the
    [catch] branch runs before anything else can happen. The random sample
    of five categories only enters the prompt text of the request, which is
    recorded here by its [startId] and [count]. *)
Definition generateStep (s : State) : State :=
  if negb (isGenerating (stats s)) || stopRef s
     || (TOTAL_GOAL <=? length (scenes s)) then
    if (TOTAL_GOAL <=? length (scenes s)) && isGenerating (stats s) then
      addToast "Generation Goal Reached!" success
        (setStats (with_isGenerating false) s)
    else s
  else
    let currentCount := length (scenes s) in
    let remaining := TOTAL_GOAL - currentCount in
    let nextBatchSize := Nat.min BATCH_SIZE remaining in
    if API_KEY (host s) then
      countBatchRequest
        (setBatchCalls
           (fun calls => calls ++ [mkBatchCall (currentCount + 1) nextBatchSize true]) s)
    else batch_failed s.

(** The dependency array of the generation effect. *)
Definition deps (s : State) : bool * nat :=
  (isGenerating (stats s), batchesCompleted (stats s)).

Definition deps_eqb (a b : bool * nat) : bool :=
  Bool.eqb (fst a) (fst b) && Nat.eqb (snd a) (snd b).

(** The cleanup of the effect: [isMounted = false] in the closure of the
    previous run. *)
Definition cleanup (s : State) : State :=
  setBatchCalls
    (map (fun c => mkBatchCall (call_startId c) (call_count c) false)) s.

(** After a render the effect runs again when its dependencies changed
    since the previous render; what it sets may cause a further render. *)
Fixpoint run_effects (fuel : nat) (prev : bool * nat) (s : State) : State :=
  match fuel with
  | 0 => s
  | S fuel' =>
      if deps_eqb prev (deps s) then s
      else run_effects fuel' (deps s) (generateStep (cleanup s))
  end.

(** Two rounds always reach a state the effect leaves alone
    (see [run_effects_settled]). *)
Definition render (prev : bool * nat) (s : State) : State :=
  run_effects 2 prev s.

(** The continuation of [generateStep] when the awaited call settles. *)
Definition batch_settled (c : BatchCall) (reply : BatchReply) (s : State) : State :=
  match batch_response (call_startId c) reply with
  | Fulfilled newBatch =>
      if isMounted c && negb (stopRef s) then
        setStats (with_batch_done (length newBatch))
          (setScenes (fun prev => prev ++ newBatch) s)
      else s
  | Thrown _ =>
      if isMounted c then batch_failed s else s
  end.

Definition handleStart (now : nat) (s : State) : State :=
  if negb (hasSelectedApiKey (host s)) then openSelectKey s
  else
    let s1 := setStopRef false s in
    let s2 :=
      if length (scenes s) =? 0 then
        setStats (fun prev =>
          {| totalGenerated := 0; batchesCompleted := 0; isGenerating := true;
             startTime := Some now; elapsedTime := 0 |}) s1
      else setStats (with_isGenerating true) s1 in
    addToast "AI Generation Started" info s2.

Definition handleInstantLoad (now : nat) (rand : nat -> Random) (s : State) : State :=
  let s1 := setStopRef true s in
  let curatedScenes := generateCuratedBatch 1 TOTAL_GOAL rand in
  let s2 := setScenes (fun _ => curatedScenes) s1 in
  let s3 :=
    setStats (fun _ =>
      {| totalGenerated := length curatedScenes;
         batchesCompleted := View.Math_ceil_quot (length curatedScenes) BATCH_SIZE;
         isGenerating := false;
         startTime := Some now;
         elapsedTime := 1 |}) s2 in
  addToast "Instant Gallery Loaded" success s3.

Definition handleStop (s : State) : State :=
  addToast "Generation Stopped" info
    (setStats (with_isGenerating false) (setStopRef true s)).

Definition handleToggleFavorite (k : nat) (s : State) : State :=
  setScenes (View.toggleFavorite k) s.

(** The interval of the timer effect exists only while generating. *)
Definition tick (s : State) : State :=
  if isGenerating (stats s) then setStats with_elapsed_tick s else s.

(** *** Images *)

Definition isPermission (msg : string) : bool :=
  includes "PERMISSION_DENIED" msg || includes "403" msg.

(** The [catch] branch of [handleGenerateImage]. *)
Definition thumbnail_failed (msg : string) (k : nat) (s : State) : State :=
  addToast
    (if isPermission msg then "Model Permission Denied. Check Key."
     else "Visualization Failed") error
    (setScenes (update_by_id k (with_isGeneratingThumbnail false)) s).

(** [handleGenerateImage] after its key gate, up to its [await]. *)
Definition requestThumbnail (owner : option nat) (k : nat) (descr : string)
    (s : State) : State :=
  let s1 := setScenes (update_by_id k (with_isGeneratingThumbnail true)) s in
  if API_KEY (host s1) then
    setThumbCalls (fun calls => calls ++ [mkThumbCall k descr owner]) s1
  else thumbnail_failed "API Key is missing" k s1.

Definition handleGenerateImage (owner : option nat) (k : nat) (descr : string)
    (s : State) : State :=
  if hasSelectedApiKey (host s) then requestThumbnail owner k descr s
  else
    let s1 := openSelectKey s in
    if hasSelectedApiKey (host s1) then requestThumbnail owner k descr s1 else s1.

(** The continuation of [handleGenerateImage] when the image call settles. *)
Definition thumbnail_settled (c : ThumbCall) (reply : ImageReply) (s : State) : State :=
  match image_response reply with
  | Fulfilled (Some imageUrl) =>
      if truthy_string (Some imageUrl) then
        addToast "Visualize Complete" success
          (setScenes
             (update_by_id (thumb_id c)
                (fun sc => with_thumbnailUrl imageUrl (with_isGeneratingThumbnail false sc))) s)
      else thumbnail_failed "No image data" (thumb_id c) s
  | Fulfilled None => thumbnail_failed "No image data" (thumb_id c) s
  | Thrown msg => thumbnail_failed msg (thumb_id c) s
  end.

(** [!scene.thumbnailUrl || scene.thumbnailUrl.includes('picsum')]. *)
Definition needs_visual (sc : SceneConcept) : bool :=
  negb (truthy_string (thumbnailUrl sc))
  || includes "picsum" (default "" (thumbnailUrl sc)).

(** The loop of a page loader over the chunks of its snapshot: the calls of
    a chunk are started together, and the loop waits for all of them. A
    chunk none of whose calls is in flight is passed at once. *)
Fixpoint run_chunks (key : nat) (done : option ToastMessage)
    (chunks : list (list SceneConcept)) (s : State) : State :=
  match chunks with
  | [] =>
      match done with
      | Some t => addToast (message t) (type t) s
      | None => s
      end
  | chunk :: rest =>
      let s1 :=
        foldl (fun acc sc => handleGenerateImage (Some key) (id sc) (description sc) acc)
          s chunk in
      let started := length (thumbCalls s1) - length (thumbCalls s) in
      if started =? 0 then run_chunks key done rest s1
      else setPageLoads (fun loads => loads ++ [mkPageLoad key started rest done]) s1
  end.

(** One awaited call of a page loader has settled. *)
Fixpoint resume_load (key : nat) (loads : list PageLoad)
  : list PageLoad * option PageLoad :=
  match loads with
  | [] => ([], None)
  | l :: rest =>
      if load_key l =? key then
        if load_waiting l <=? 1 then (rest, Some l)
        else (mkPageLoad key (load_waiting l - 1) (load_rest l) (load_done l) :: rest, None)
      else
        let (rest', found) := resume_load key rest in (l :: rest', found)
  end.

Definition owner_resumed (owner : option nat) (s : State) : State :=
  match owner with
  | None => s
  | Some key =>
      let (loads, found) := resume_load key (pageLoads s) in
      let s1 := setPageLoads (fun _ => loads) s in
      match found with
      | Some l => run_chunks key (load_done l) (load_rest l) s1
      | None => s1
      end
  end.

Definition displayed (s : State) : list SceneConcept :=
  View.displayedScenes (View.filteredScenes (showFavorites s) (scenes s)) (currentPage s).

(** [handleGeneratePageThumbnails] of [App.tsx]: the scenes of the displayed
    page are visited one after the other, each call awaited. *)
Definition handleGeneratePageThumbnails (s : State) : State :=
  if negb (hasSelectedApiKey (host s)) then openSelectKey s
  else
    let s1 := addToast "Batch Loading Visuals..." info s in
    let displayedScenes := displayed s in
    let key := pageLoadsStarted s1 in
    run_chunks key None
      (map (fun scene => [scene]) (List.filter needs_visual displayedScenes))
      (countPageLoad s1).

Definition CHUNK_SIZE : nat := 3.

(** [for (let i = 0; i < scenesToLoad.length; i += CHUNK_SIZE)
      chunk = scenesToLoad.slice(i, i + CHUNK_SIZE)]. *)
Fixpoint chunk_loop (fuel i : nat) (scenesToLoad : list SceneConcept)
  : list (list SceneConcept) :=
  match fuel with
  | 0 => []
  | S fuel' =>
      if i <? length scenesToLoad then
        View.slice scenesToLoad (Z.of_nat i) (Z.of_nat (i + CHUNK_SIZE))
          :: chunk_loop fuel' (i + CHUNK_SIZE) scenesToLoad
      else []
  end.

(** The later revision of [handleGeneratePageThumbnails] (the second copy of
    the container): scenes already generating are left out of the snapshot,
    which is then loaded in chunks of three. The automatic mode that calls
    it with [silent = true] from an effect is not part of this model. *)
Definition handleGeneratePageThumbnails_chunked (silent : bool) (s : State) : State :=
  let gate :=
    if hasSelectedApiKey (host s) then Some s
    else if silent then None
    else
      let s1 := openSelectKey s in
      if hasSelectedApiKey (host s1) then Some s1 else None in
  match gate with
  | None => if silent then s else openSelectKey s
  | Some s1 =>
      let scenesToLoad :=
        List.filter
          (fun sc => needs_visual sc && negb (truthy_flag (isGeneratingThumbnail sc)))
          (displayed s) in
      if length scenesToLoad =? 0 then
        if silent then s1 else addToast "All visuals on page already loaded." info s1
      else
        let s2 :=
          if silent then s1
          else addToast ("Loading " +:+ number_to_string (length scenesToLoad)
                           +:+ " visuals...") info s1 in
        let key := pageLoadsStarted s2 in
        run_chunks key
          (if silent then None else Some (mkToast "Page Visuals Loaded" success))
          (chunk_loop (length scenesToLoad) 0 scenesToLoad)
          (countPageLoad s2)
  end.

(** The [catch] branch of [handleGenerateHighRes]. *)
Definition highres_failed (msg : string) (sel : SceneConcept) (s : State) : State :=
  addToast
    (if isPermission msg then "Model Permission Denied. Check Key."
     else "Generation Failed") error
    (setSelectedScene (option_map (with_isGeneratingHighRes false))
       (setScenes (update_by_id (id sel) (with_isGeneratingHighRes false)) s)).

Definition requestHighRes (sel : SceneConcept) (s : State) : State :=
  let s1 :=
    setSelectedScene (option_map (with_isGeneratingHighRes true))
      (setScenes (update_by_id (id sel) (with_isGeneratingHighRes true)) s) in
  if API_KEY (host s1) then setHighResCalls (fun calls => calls ++ [sel]) s1
  else highres_failed "API Key is missing" sel s1.

Definition handleGenerateHighRes (s : State) : State :=
  match selectedScene s with
  | None => s
  | Some sel =>
      if hasSelectedApiKey (host s) then requestHighRes sel s
      else
        let s1 := openSelectKey s in
        if hasSelectedApiKey (host s1) then requestHighRes sel s1 else s1
  end.

(** The continuation of [handleGenerateHighRes]; [sel] is the
    [selectedScene] its closure captured. *)
Definition highres_settled (sel : SceneConcept) (reply : ImageReply) (s : State) : State :=
  match image_response reply with
  | Fulfilled (Some url) =>
      if truthy_string (Some url) then
        let updatedScene := with_isGeneratingHighRes false (with_highResUrl url sel) in
        addToast "High-Res Image Complete (2K)" success
          (setScenes (update_by_id (id sel) (fun _ => updatedScene))
             (setSelectedScene (fun _ => Some updatedScene) s))
      else highres_failed "No image returned" sel s
  | Fulfilled None => highres_failed "No image returned" sel s
  | Thrown msg => highres_failed msg sel s
  end.

(** *** Events: user actions, settled calls, timer ticks *)

Inductive Event :=
  | Start (now : nat)
  | Stop
  | InstantLoad (now : nat) (rand : nat -> Random)
  | BatchSettles (k : nat) (reply : BatchReply)
  | Tick
  | ToggleFavorite (k : nat)
  | ToggleShowFavorites
  | PreviousPage
  | NextPage
  | GenerateImage (k : nat) (descr : string)
  | GeneratePageThumbnails
  | GeneratePageThumbnailsChunked (silent : bool)
  | ThumbnailSettles (k : nat) (reply : ImageReply)
  | OpenModal (scene : SceneConcept)
  | CloseModal
  | GenerateHighRes
  | HighResSettles (k : nat) (reply : ImageReply)
  | HostChanges (h : Host).

(** What the event does before React renders again. *)
Definition handle (ev : Event) (s : State) : State :=
  match ev with
  | Start now => handleStart now s
  | Stop => handleStop s
  | InstantLoad now rand => handleInstantLoad now rand s
  | BatchSettles k reply =>
      match batchCalls s !! k with
      | Some c => batch_settled c reply (setBatchCalls (delete k) s)
      | None => s
      end
  | Tick => tick s
  | ToggleFavorite k => handleToggleFavorite k s
  | ToggleShowFavorites =>
      setCurrentPage (fun _ => 1) (setShowFavorites (negb (showFavorites s)) s)
  | PreviousPage => setCurrentPage (fun p => Nat.max 1 (p - 1)) s
  | NextPage =>
      let totalPages := View.totalPages (View.filteredScenes (showFavorites s) (scenes s)) in
      setCurrentPage (fun p => Nat.min totalPages (p + 1)) s
  | GenerateImage k descr => handleGenerateImage None k descr s
  | GeneratePageThumbnails => handleGeneratePageThumbnails s
  | GeneratePageThumbnailsChunked silent => handleGeneratePageThumbnails_chunked silent s
  | ThumbnailSettles k reply =>
      match thumbCalls s !! k with
      | Some c =>
          owner_resumed (thumb_owner c)
            (thumbnail_settled c reply (setThumbCalls (delete k) s))
      | None => s
      end
  | OpenModal scene => setSelectedScene (fun _ => Some scene) s
  | CloseModal => setSelectedScene (fun _ => None) s
  | GenerateHighRes => handleGenerateHighRes s
  | HighResSettles k reply =>
      match highResCalls s !! k with
      | Some sel => highres_settled sel reply (setHighResCalls (delete k) s)
      | None => s
      end
  | HostChanges h => setHost (fun _ => h) s
  end.

Definition step (s : State) (ev : Event) : State :=
  render (deps s) (handle ev s).

Definition run (s : State) (evs : list Event) : State :=
  foldl step s evs.

(** The thumbnail calls in flight for record [k]. *)
Definition thumbnails_in_flight (k : nat) (s : State) : nat :=
  length (List.filter (fun c => thumb_id c =? k) (thumbCalls s)).

(** What can happen in a state: the actions the rendered page lets the
    user trigger (the buttons of the dashboard, the gallery header, the
    cards and the modal), the settling of a call that is in flight, and a
    tick of the timer while it runs. The automatic mode of the revised
    loader is never on. *)
Definition gallery_shown (s : State) : bool :=
  negb ((length (scenes s) =? 0) && negb (isGenerating (stats s))).

Definition offered (s : State) (ev : Event) : bool :=
  let filtered := View.filteredScenes (showFavorites s) (scenes s) in
  match ev with
  | Start _ | InstantLoad _ _ =>
      negb (isGenerating (stats s))
      && ((totalGenerated (stats s) <? TOTAL_GOAL) || negb (gallery_shown s))
  | Stop => isGenerating (stats s)
  | ToggleFavorite k =>
      gallery_shown s && existsb (fun sc => id sc =? k) (displayed s)
  | ToggleShowFavorites => 0 <? totalGenerated (stats s)
  | PreviousPage =>
      gallery_shown s && (1 <? View.totalPages filtered)
      && negb (currentPage s =? 1)
  | NextPage =>
      gallery_shown s && (1 <? View.totalPages filtered)
      && negb (currentPage s =? View.totalPages filtered)
  | GenerateImage k descr =>
      gallery_shown s
      && existsb (fun sc => (id sc =? k) && String.eqb (description sc) descr
                            && negb (truthy_string (thumbnailUrl sc))
                            && negb (truthy_flag (isGeneratingThumbnail sc)))
           (displayed s)
  | GeneratePageThumbnails | GeneratePageThumbnailsChunked false =>
      gallery_shown s && (0 <? length (scenes s)) && negb (showFavorites s)
  | GeneratePageThumbnailsChunked true => false
  | OpenModal scene =>
      gallery_shown s && truthy_string (thumbnailUrl scene)
      && bool_decide (scene ∈ displayed s)
  | CloseModal => match selectedScene s with Some _ => true | None => false end
  | GenerateHighRes =>
      match selectedScene s with
      | Some sel =>
          negb (truthy_string (highResUrl sel))
          && negb (truthy_flag (isGeneratingHighRes sel))
      | None => false
      end
  | BatchSettles k _ => k <? length (batchCalls s)
  | ThumbnailSettles k _ => k <? length (thumbCalls s)
  | HighResSettles k _ => k <? length (highResCalls s)
  | Tick => isGenerating (stats s)
  | HostChanges _ => true
  end.

End App.

(** * Specification vocabulary *)

(** What counts as an empty answer of the remote source (no text, or an
    empty array) and as a malformed one (text that is not JSON, or JSON that
    is not an array). *)
Definition empty_response (reply : Service.BatchReply) : bool :=
  match reply with
  | Service.CallRejected => false
  | Service.Response text parsed =>
      negb (truthy_string text)
      || match parsed with Service.ParsedArray [] => true | _ => false end
  end.

Definition malformed_response (reply : Service.BatchReply) : bool :=
  match reply with
  | Service.CallRejected => false
  | Service.Response text parsed =>
      truthy_string text
      && match parsed with
         | Service.SyntaxError | Service.NotAnArray => true
         | Service.ParsedArray _ => false
         end
  end.

(** The number of records whose [isFavorite] is [true]. *)
Fixpoint count_favorites (scenes : list SceneConcept) : nat :=
  match scenes with
  | [] => 0
  | s :: rest =>
      match isFavorite s with
      | Some true => S (count_favorites rest)
      | _ => count_favorites rest
      end
  end.

(** The size of page [p] (counted from 1) among [pages] pages over [L] items,
    as the specification gives it. *)
Definition page_size (L pages p : nat) : nat :=
  if p <? pages then 10 else if L mod 10 =? 0 then 10 else L mod 10.

(** Sample data for the examples: a generated record without images. *)
Definition sample_item (d : string) : SceneItem :=
  mkItem d "Neon" "Dusk" "Handheld" None None None None None.

Definition sample_scene (n : nat) : SceneConcept :=
  Service.with_id (sample_item "a rain-soaked arcade at night") n.

(** The fields of a record that no status, favourite or image update
    touches: they identify the record and its content. *)
Definition core (s : SceneConcept) : nat * string * string * string * string :=
  (id s, description s, category s, lighting s, camera s).

(** Whether a batch answer makes [generateSceneBatch] return, and the number
    of records it then returns. *)
Definition succeeded (reply : Service.BatchReply) : bool :=
  match Service.batch_response 0 reply with
  | Service.Fulfilled _ => true
  | Service.Thrown _ => false
  end.

Definition delivered (reply : Service.BatchReply) : nat :=
  match Service.batch_response 0 reply with
  | Service.Fulfilled newBatch => length newBatch
  | Service.Thrown _ => 0
  end.

(** The remote source keeps to the requested size: the answer that settles
    a batch call holds at most the [count] records the call asked for. *)
Definition within_request (s : App.State) (ev : App.Event) : bool :=
  match ev with
  | App.BatchSettles k reply =>
      match App.batchCalls s !! k with
      | Some c => delivered reply <=? App.call_count c
      | None => true
      end
  | _ => true
  end.

Fixpoint honest_run (s : App.State) (evs : list App.Event) : bool :=
  match evs with
  | [] => true
  | ev :: rest => within_request s ev && honest_run (App.step s ev) rest
  end.

(** The invariant of the generation loop: ids are 1..length; the counter of
    generated records is the length; the closure that is still mounted was
    created from the present collection, while generating and below the
    goal; at the goal the loop is off. *)
Definition ids_ok (s : App.State) : Prop :=
  map id (App.scenes s) = seq 1 (length (App.scenes s)).

Definition total_ok (s : App.State) : Prop :=
  totalGenerated (App.stats s) = length (App.scenes s).

Definition mounted_ok (s : App.State) : Prop :=
  forall c, In c (App.batchCalls s) -> App.isMounted c = true ->
    isGenerating (App.stats s) = true /\
    App.call_startId c = length (App.scenes s) + 1 /\
    App.call_count c = Nat.min BATCH_SIZE (TOTAL_GOAL - length (App.scenes s)) /\
    length (App.scenes s) < TOTAL_GOAL.

Definition goal_ok (s : App.State) : Prop :=
  TOTAL_GOAL <= length (App.scenes s) -> isGenerating (App.stats s) = false.

Definition loop_invariant (s : App.State) : Prop :=
  ids_ok s /\ total_ok s /\ mounted_ok s /\ goal_ok s.

(** What the generation loop reads and writes, apart from the content of
    the records. *)
Definition loop_state (s : App.State)
  : GenerationStats * bool * list App.BatchCall * nat :=
  (App.stats s, App.stopRef s, App.batchCalls s, App.batchRequests s).

(** A host with a selected key and the key in the environment. *)
Definition ready_host : App.Host := App.mkHost true true true.

(** A well-formed answer carrying the given items. *)
Definition answer (items : list SceneItem) : Service.BatchReply :=
  Service.Response (Some "[{...}]") (Service.ParsedArray items).

(** [retouched s s']: from [s] to [s'] the loop state is the same and every
    record keeps its position and its core; [same_ids] is the weaker
    relation where every record keeps its position and its id. *)
Definition retouched (s s' : App.State) : Prop :=
  loop_state s' = loop_state s /\
  map core (App.scenes s') = map core (App.scenes s).

Definition same_ids (s s' : App.State) : Prop :=
  loop_state s' = loop_state s /\
  map id (App.scenes s') = map id (App.scenes s).

(** The events that belong to the generation loop; the others act on the
    view, the images and the host. *)
Definition loop_event (ev : App.Event) : bool :=
  match ev with
  | App.Start _ | App.Stop | App.InstantLoad _ _ | App.BatchSettles _ _ | App.Tick => true
  | _ => false
  end.

Definition is_start (ev : App.Event) : bool :=
  match ev with
  | App.Start _ => true
  | _ => false
  end.

(** The loop mid-run with [acc] records: started with a key, not stopped,
    and either below the goal with exactly one call in flight, made by the
    mounted closure, or at the goal with none. *)
Definition generating_at (acc : nat) (s : App.State) : Prop :=
  length (App.scenes s) = acc /\
  totalGenerated (App.stats s) = acc /\
  App.stopRef s = false /\
  App.API_KEY (App.host s) = true /\
  ((acc < TOTAL_GOAL /\ isGenerating (App.stats s) = true /\
    exists c, App.batchCalls s = [c] /\ App.isMounted c = true)
   \/ (TOTAL_GOAL <= acc /\ App.batchCalls s = [])).

(** Every event of the run is one the page offers when it happens. *)
Fixpoint offered_run (s : App.State) (evs : list App.Event) : bool :=
  match evs with
  | [] => true
  | ev :: rest => App.offered s ev && offered_run (App.step s ev) rest
  end.

(** A successful image answer. *)
Definition image_answer : Service.ImageReply :=
  Service.ImageResponse (Some [Service.mkPart (Some ("image/png", "iVBORw0KGgo="))]).

(** * The exported list ([handleDownloadList] of [App.tsx]) *)

Module Download.

(** [parts.join(sep)]. *)
Fixpoint join (sep : string) (parts : list string) : string :=
  match parts with
  | [] => ""
  | [p] => p
  | p :: rest => p +:+ sep +:+ join sep rest
  end.

(** The line feed of ['\n']. *)
Definition LF : ascii := ascii_of_nat 10.

(** [`${s.id}. [${s.category}] ${s.description}`]. *)
Definition export_line (s : SceneConcept) : string :=
  number_to_string (id s) +:+ ". [" +:+ category s +:+ "] " +:+ description s.

(** [showFavorites ? scenes.filter(s => s.isFavorite) : scenes]. *)
Definition scenesToExport (showFavorites : bool) (scenes : list SceneConcept)
  : list SceneConcept :=
  if showFavorites then List.filter (fun s => truthy_flag (isFavorite s)) scenes
  else scenes.

(** The text handed to the [Blob] of the download. *)
Definition textContent (showFavorites : bool) (scenes : list SceneConcept) : string :=
  join (String LF "") (map export_line (scenesToExport showFavorites scenes)).

End Download.

(** * Further vocabulary *)

(** [text.split(c)] for a one-character separator: the pieces between the
    separators, one more than there are separators. *)
Fixpoint split_at (c : ascii) (text : string) : list string :=
  match text with
  | EmptyString => [""]
  | String a rest =>
      if Ascii.eqb a c then "" :: split_at c rest
      else
        match split_at c rest with
        | piece :: pieces => String a piece :: pieces
        | [] => [String a ""]
        end
  end.

(** Whether a character occurs in a text. *)
Fixpoint has_char (c : ascii) (text : string) : bool :=
  match text with
  | EmptyString => false
  | String a rest => Ascii.eqb a c || has_char c rest
  end.

(** The batch calls in flight whose closure is still mounted. *)
Definition mounted_calls (s : App.State) : list App.BatchCall :=
  List.filter App.isMounted (App.batchCalls s).

(** What a user sees of a record: everything but the difference between an
    unset favourite flag and [false]. *)
Definition shown (s : SceneConcept)
  : nat * string * string * string * string
    * option string * option bool * option string * option bool * bool :=
  (id s, description s, category s, lighting s, camera s,
   thumbnailUrl s, isGeneratingThumbnail s, highResUrl s, isGeneratingHighRes s,
   truthy_flag (isFavorite s)).

(** Whether a part of an image answer carries image data:
    [part.inlineData && part.inlineData.data]. *)
Definition carries_image (part : Service.Part) : bool :=
  match Service.inlineData part with
  | Some (_, String _ _) => true
  | _ => false
  end.

(** [quiet_without_key s s']: if [s] has no API key in its environment,
    neither has [s'], no batch request was sent from [s] to [s'], and no
    image call was added to those in flight. *)
Definition quiet_without_key (s s' : App.State) : Prop :=
  App.API_KEY (App.host s) = false ->
  App.API_KEY (App.host s') = false /\
  App.batchRequests s' = App.batchRequests s /\
  length (App.thumbCalls s') <= length (App.thumbCalls s) /\
  length (App.highResCalls s') <= length (App.highResCalls s).

(** The part of the state the generation effect never writes. *)
Definition beside_loop (s : App.State) :=
  (App.scenes s, App.showFavorites s, App.selectedScene s, App.currentPage s,
   App.host s, App.thumbCalls s, App.highResCalls s, App.pageLoads s,
   App.pageLoadsStarted s, startTime (App.stats s), elapsedTime (App.stats s)).

(** The notice of a failed batch. *)
Definition failure_toast : ToastMessage :=
  mkToast "Generation failed. Check console." error.

(** * Properties *)

(** ** The remote content source *)

Section RemoteSource.
Import Service.

Lemma length_number_items startId items :
  length (number_items startId items) = length items.
Proof. unfold number_items. by rewrite length_imap. Qed.


Lemma ids_number_items startId items :
  map id (number_items startId items) = seq startId (length items).
Proof.
  unfold number_items. revert startId.
  induction items as [|item items IH]; intros startId; [done|].
  cbn [imap length seq map]. f_equal.
  - simpl. lia.
  - rewrite <- (IH (S startId)). f_equal. apply imap_ext.
    intros i x _. simpl. f_equal. lia.
Qed.

Lemma batch_response_length startId reply newBatch :
  batch_response startId reply = Fulfilled newBatch ->
  map id newBatch = seq startId (length newBatch).
Proof.
  destruct reply as [|text parsed]; simpl; [done|].
  destruct (truthy_string text); simpl.
  - destruct parsed; try done. intros [= <-].
    rewrite ids_number_items. by rewrite length_number_items.
  - by intros [= <-].
Qed.

(** [generateSceneBatch] and [generateSceneThumbnail] at their awaits:
    without a key they reject before any request, with a key the outcome
    is that of the part after the await. *)
Lemma generateSceneBatch_await API_KEY startId count reply :
  generateSceneBatch API_KEY startId count reply
  = if API_KEY then batch_response startId reply else Thrown "API Key is missing.".
Proof. by destruct API_KEY. Qed.

Lemma generateSceneThumbnail_await API_KEY reply :
  generateSceneThumbnail API_KEY reply
  = if API_KEY then image_response reply else Thrown "API Key is missing".
Proof. by destruct API_KEY. Qed.

(** C4 as the specification words it does not hold: an answer whose text is
    not JSON makes the call throw instead of returning an empty list. *)
Lemma generateSceneBatch_malformed_throws :
  malformed_response (Response (Some "{not json") SyntaxError) = true /\
  generateSceneBatch true 1 50 (Response (Some "{not json") SyntaxError)
    = Thrown "SyntaxError".
Proof. split; reflexivity. Qed.

(** C4, amended: on an empty or malformed answer [generateSceneBatch]
    either returns the empty list, which it does exactly for the empty
    answers, or throws, which it does exactly for the malformed ones; it
    never makes up a record. *)
Theorem generateSceneBatch_empty_or_malformed startId count reply :
  empty_response reply || malformed_response reply = true ->
  match generateSceneBatch true startId count reply with
  | Fulfilled scenes => empty_response reply = true /\ scenes = []
  | Thrown _ => malformed_response reply = true
  end.
Proof.
  unfold generateSceneBatch, batch_response.
  destruct reply as [|text parsed]; simpl; [done|].
  destruct (truthy_string text); simpl; [|done].
  by destruct parsed as [| |[|item items]].
Qed.

Lemma generateSceneBatch_empty_or_malformed_witness :
  match generateSceneBatch true 1 50 (Response None SyntaxError) with
  | Fulfilled scenes => empty_response (Response None SyntaxError) = true /\ scenes = []
  | Thrown _ => malformed_response (Response None SyntaxError) = true
  end.
Proof. apply (generateSceneBatch_empty_or_malformed 1 50). reflexivity. Defined.

End RemoteSource.

(** ** The local content source *)

Section LocalSource.
Import Service.





Lemma curated_loop_map startId rand todo : forall i acc,
  curated_loop startId rand i todo acc
  = acc ++ map (curated_scene startId rand) (seq i todo).
Proof.
  induction todo as [|todo IH]; intros i acc; simpl.
  - by rewrite app_nil_r.
  - rewrite IH. by rewrite <- app_assoc.
Qed.

Lemma generateCuratedBatch_map startId count rand :
  generateCuratedBatch startId count rand
  = map (curated_scene startId rand) (seq 0 count).
Proof. unfold generateCuratedBatch. by rewrite curated_loop_map. Qed.

Lemma ids_generateCuratedBatch startId count rand :
  map id (generateCuratedBatch startId count rand) = seq startId count.
Proof.
  rewrite generateCuratedBatch_map, map_map. simpl.
  assert (forall i, map (fun x => startId + x) (seq i count) = seq (startId + i) count) as H.
  { induction count as [|count IH]; intros i; simpl; [done|].
    f_equal. rewrite IH. f_equal. lia. }
  rewrite H. f_equal. lia.
Qed.

Lemma length_generateCuratedBatch startId count rand :
  length (generateCuratedBatch startId count rand) = count.
Proof. by rewrite generateCuratedBatch_map, length_map, length_seq. Qed.


End LocalSource.

(** ** The view projection *)

Section ViewProjection.

Lemma Math_ceil_quot_10 L : View.Math_ceil_quot L 10 = (L + 9) / 10.
Proof.
  unfold View.Math_ceil_quot. apply Nat2Z.inj.
  change (Pos.of_nat 10) with 10%positive.
  unfold Qceiling, Qfloor, Qopp. simpl Qnum. simpl Qden.
  rewrite Nat2Z.inj_div, Nat2Z.inj_add.
  rewrite Z2Nat.id.
  - change (Z.of_nat 9) with 9%Z. change (Z.of_nat 10) with 10%Z.
    Z.div_mod_to_equations. lia.
  - Z.div_mod_to_equations. lia.
Qed.

Lemma totalPages_bounds (filtered : list SceneConcept) :
  length filtered <= 10 * View.totalPages filtered < length filtered + 10.
Proof.
  unfold View.totalPages, ITEMS_PER_PAGE. rewrite Math_ceil_quot_10.
  pose proof (Nat.div_mod_eq (length filtered + 9) 10).
  pose proof (Nat.mod_upper_bound (length filtered + 9) 10). lia.
Qed.

Lemma displayedScenes_take_drop (filtered : list SceneConcept) p :
  1 <= p ->
  View.displayedScenes filtered p = take 10 (drop ((p - 1) * 10) filtered).
Proof.
  intros Hp. unfold View.displayedScenes, View.slice, ITEMS_PER_PAGE.
  set (len := length filtered).
  destruct (Z.ltb_spec ((Z.of_nat p - 1) * Z.of_nat 10) 0); [lia|].
  destruct (Z.ltb_spec (Z.of_nat p * Z.of_nat 10) 0); [lia|].
  destruct (le_lt_dec len ((p - 1) * 10)) as [Hge|Hlt].
  - rewrite !drop_ge by (fold len; lia). by rewrite !take_nil.
  - replace (Z.to_nat (Z.min ((Z.of_nat p - 1) * Z.of_nat 10) (Z.of_nat len)))
      with ((p - 1) * 10) by lia.
    apply list_eq. intros i. rewrite !lookup_take.
    repeat case_decide; try done; try lia.
    rewrite lookup_drop. symmetry. apply lookup_ge_None_2. fold len. lia.
Qed.

(** C9: with pages of ten, the page count is the least number of pages that
    holds all [L] items (the ceiling of [L / 10]); page [p] shows the items
    of index [(p - 1) * 10] up to [p * 10] of the filtered collection; every
    page but the last holds ten items and the last holds [L mod 10], or ten
    when ten divides [L]. *)
Theorem pagination_spec (filtered : list SceneConcept) (p : nat) :
  1 <= p <= View.totalPages filtered ->
  (length filtered <= 10 * View.totalPages filtered < length filtered + 10) /\
  (forall i, View.displayedScenes filtered p !! i
             = if i <? 10 then filtered !! ((p - 1) * 10 + i) else None) /\
  length (View.displayedScenes filtered p)
    = page_size (length filtered) (View.totalPages filtered) p.
Proof.
  intros [Hp1 Hp2]. pose proof (totalPages_bounds filtered) as Hb.
  split; [done|]. rewrite displayedScenes_take_drop by done. split.
  - intros i. rewrite lookup_take, lookup_drop.
    destruct (Nat.ltb_spec i 10); case_decide; try done; lia.
  - rewrite length_take, length_drop. unfold page_size.
    pose proof (Nat.div_mod_eq (length filtered) 10).
    pose proof (Nat.mod_upper_bound (length filtered) 10).
    destruct (Nat.ltb_spec p (View.totalPages filtered)); [lia|].
    assert (p = View.totalPages filtered) as -> by lia.
    destruct (Nat.eqb_spec (length filtered mod 10) 0); lia.
Qed.

Lemma pagination_spec_witness :
  1 <= 2 <= View.totalPages (map sample_scene (seq 1 12)) /\
  length (View.displayedScenes (map sample_scene (seq 1 12)) 2) = 2.
Proof.
  assert (1 <= 2 <= View.totalPages (map sample_scene (seq 1 12))) as H
    by (vm_compute; lia).
  split; [exact H|].
  exact (proj2 (proj2 (pagination_spec (map sample_scene (seq 1 12)) 2 H))).
Defined.

Lemma update_by_id_lookup k f (scenes : list SceneConcept) i :
  update_by_id k f scenes !! i
  = (fun s => if id s =? k then f s else s) <$> scenes !! i.
Proof. unfold update_by_id. apply list_lookup_fmap. Qed.

Lemma ids_update_by_id k f (scenes : list SceneConcept) :
  (forall s, id (f s) = id s) ->
  map id (update_by_id k f scenes) = map id scenes.
Proof.
  intros Hf. unfold update_by_id. rewrite map_map. apply map_ext.
  intros s. by destruct (id s =? k).
Qed.

Lemma length_update_by_id k f (scenes : list SceneConcept) :
  length (update_by_id k f scenes) = length scenes.
Proof. unfold update_by_id. apply length_map. Qed.

Lemma filter_sublist {A} (f : A -> bool) (l : list A) :
  List.filter f l `sublist_of` l.
Proof.
  induction l as [|x l IH]; simpl; [constructor|].
  destruct (f x); by constructor.
Qed.

Lemma length_favorites (scenes : list SceneConcept) :
  length (List.filter (fun s => truthy_flag (isFavorite s)) scenes)
  = count_favorites scenes.
Proof.
  induction scenes as [|s scenes IH]; simpl; [done|].
  destruct (isFavorite s) as [[|]|]; simpl; by rewrite IH.
Qed.

(** C10: toggling the favourite flag of record [k] keeps the length and the
    order of the collection, leaves every record with another id as it is,
    and changes nothing but [isFavorite] in a record with id [k]; the
    favourites view is the collection stripped of the records whose flag is
    not [true], in the original order, so its length is their number, and
    the unfiltered view is the collection itself. *)
Theorem favorites_spec (scenes : list SceneConcept) (k : nat) :
  (length (View.toggleFavorite k scenes) = length scenes /\
   (forall i, View.toggleFavorite k scenes !! i
              = (fun s => if id s =? k then View.flip_favorite s else s) <$> scenes !! i) /\
   (forall s,
      id (View.flip_favorite s) = id s /\
      description (View.flip_favorite s) = description s /\
      category (View.flip_favorite s) = category s /\
      lighting (View.flip_favorite s) = lighting s /\
      camera (View.flip_favorite s) = camera s /\
      thumbnailUrl (View.flip_favorite s) = thumbnailUrl s /\
      isGeneratingThumbnail (View.flip_favorite s) = isGeneratingThumbnail s /\
      highResUrl (View.flip_favorite s) = highResUrl s /\
      isGeneratingHighRes (View.flip_favorite s) = isGeneratingHighRes s /\
      isFavorite (View.flip_favorite s) = Some (negb (truthy_flag (isFavorite s))))) /\
  (View.filteredScenes true scenes `sublist_of` scenes /\
   (forall s, In s (View.filteredScenes true scenes)
              <-> In s scenes /\ isFavorite s = Some true) /\
   length (View.filteredScenes true scenes) = count_favorites scenes /\
   View.filteredScenes false scenes = scenes).
Proof.
  split; [split; [|split] | split; [|split; [|split]]].
  - apply length_update_by_id.
  - intros i. apply update_by_id_lookup.
  - intros s. by repeat split.
  - apply filter_sublist.
  - intros s. unfold View.filteredScenes. rewrite filter_In.
    by destruct (isFavorite s) as [[|]|]; simpl; intuition.
  - apply length_favorites.
  - done.
Qed.

End ViewProjection.

(** ** The application container *)

Section Container.
Import Service App.

Lemma TOTAL_GOAL_eq : TOTAL_GOAL = 1000.
Proof. reflexivity. Qed.

Lemma BATCH_SIZE_eq : BATCH_SIZE = 50.
Proof. reflexivity. Qed.

Opaque TOTAL_GOAL BATCH_SIZE.

(** *** Updates that only retouch records *)

Lemma retouched_refl s : retouched s s.
Proof. by split. Qed.

Lemma retouched_trans s1 s2 s3 :
  retouched s1 s2 -> retouched s2 s3 -> retouched s1 s3.
Proof. intros [H1 H2] [H3 H4]. split; congruence. Qed.

Lemma retouched_same_ids s s' : retouched s s' -> same_ids s s'.
Proof.
  intros [H1 H2]. split; [done|].
  assert (forall l : list SceneConcept, map id l = map (fun c => fst (fst (fst (fst c)))) (map core l)) as E.
  { intros l. rewrite map_map. by apply map_ext. }
  by rewrite !E, H2.
Qed.

Lemma same_ids_trans s1 s2 s3 : same_ids s1 s2 -> same_ids s2 s3 -> same_ids s1 s3.
Proof. intros [H1 H2] [H3 H4]. split; congruence. Qed.

Lemma same_ids_length s s' : same_ids s s' -> length (scenes s') = length (scenes s).
Proof.
  intros [_ H]. apply (f_equal length) in H. by rewrite !length_map in H.
Qed.

Lemma core_update_by_id k f (l : list SceneConcept) :
  (forall s, core (f s) = core s) ->
  map core (update_by_id k f l) = map core l.
Proof.
  intros Hf. unfold update_by_id. rewrite map_map. apply map_ext.
  intros s. by destruct (id s =? k).
Qed.

Lemma retouched_setScenes k f s :
  (forall sc, core (f sc) = core sc) ->
  retouched s (setScenes (update_by_id k f) s).
Proof. intros Hf. split; [done|]. simpl. by apply core_update_by_id. Qed.

Lemma retouched_addToast msg ty s : retouched s (addToast msg ty s).
Proof. by split. Qed.

Lemma retouched_openSelectKey s : retouched s (openSelectKey s).
Proof. by split. Qed.

Lemma retouched_thumbnail_failed msg k s : retouched s (thumbnail_failed msg k s).
Proof.
  unfold thumbnail_failed.
  eapply retouched_trans; [|apply retouched_addToast].
  by apply retouched_setScenes.
Qed.

Lemma retouched_requestThumbnail owner k descr s :
  retouched s (requestThumbnail owner k descr s).
Proof.
  unfold requestThumbnail.
  eapply retouched_trans; [apply (retouched_setScenes k (with_isGeneratingThumbnail true)); done|].
  destruct (API_KEY _); [by split | apply retouched_thumbnail_failed].
Qed.

Lemma retouched_handleGenerateImage owner k descr s :
  retouched s (handleGenerateImage owner k descr s).
Proof.
  unfold handleGenerateImage.
  destruct (hasSelectedApiKey (host s)); [apply retouched_requestThumbnail|].
  destruct (hasSelectedApiKey (host (openSelectKey s))); [|by split].
  eapply retouched_trans; [apply retouched_openSelectKey|apply retouched_requestThumbnail].
Qed.

Lemma retouched_chunk key chunk : forall s,
  retouched s
    (foldl (fun acc sc => handleGenerateImage (Some key) (id sc) (description sc) acc) s chunk).
Proof.
  induction chunk as [|sc chunk IH]; intros s; simpl; [apply retouched_refl|].
  eapply retouched_trans; [apply retouched_handleGenerateImage | apply IH].
Qed.

Lemma retouched_run_chunks key done chunks : forall s,
  retouched s (run_chunks key done chunks s).
Proof.
  induction chunks as [|chunk rest IH]; intros s; simpl.
  - destruct done; [apply retouched_addToast | apply retouched_refl].
  - destruct (_ =? 0).
    + eapply retouched_trans; [apply retouched_chunk | apply IH].
    + eapply retouched_trans; [apply retouched_chunk | by split].
Qed.

Lemma retouched_owner_resumed owner s : retouched s (owner_resumed owner s).
Proof.
  destruct owner as [key|]; simpl; [|apply retouched_refl].
  destruct (resume_load key (pageLoads s)) as [loads [l|]].
  - eapply retouched_trans; [|apply retouched_run_chunks]. by split.
  - by split.
Qed.

Lemma retouched_thumbnail_settled c reply s : retouched s (thumbnail_settled c reply s).
Proof.
  unfold thumbnail_settled.
  destruct (image_response reply) as [[url|]|msg];
    try apply retouched_thumbnail_failed.
  destruct (truthy_string (Some url)); [|apply retouched_thumbnail_failed].
  eapply retouched_trans; [|apply retouched_addToast].
  by apply retouched_setScenes.
Qed.

Lemma retouched_handleGeneratePageThumbnails s :
  retouched s (handleGeneratePageThumbnails s).
Proof.
  unfold handleGeneratePageThumbnails.
  destruct (negb _); [apply retouched_openSelectKey|].
  eapply retouched_trans; [|apply retouched_run_chunks]. by split.
Qed.

Lemma retouched_handleGeneratePageThumbnails_chunked silent s :
  retouched s (handleGeneratePageThumbnails_chunked silent s).
Proof.
  unfold handleGeneratePageThumbnails_chunked.
  set (gate := if hasSelectedApiKey (host s) then _ else _).
  assert (match gate with Some s1 => retouched s s1 | None => True end) as Hg.
  { subst gate. destruct (hasSelectedApiKey (host s)); [apply retouched_refl|].
    destruct silent; [done|].
    destruct (hasSelectedApiKey (host (openSelectKey s))); [|done].
    apply retouched_openSelectKey. }
  destruct gate as [s1|].
  - destruct (_ =? 0).
    + destruct silent; [done|].
      eapply retouched_trans; [exact Hg | apply retouched_addToast].
    + eapply retouched_trans; [|apply retouched_run_chunks].
      eapply retouched_trans; [exact Hg|].
      destruct silent; by split.
  - destruct silent; [apply retouched_refl | apply retouched_openSelectKey].
Qed.

Lemma retouched_handleToggleFavorite k s : retouched s (handleToggleFavorite k s).
Proof. by apply retouched_setScenes. Qed.

Lemma ids_update_const k (u : SceneConcept) (l : list SceneConcept) :
  id u = k -> map id (update_by_id k (fun _ => u) l) = map id l.
Proof.
  intros Hu. unfold update_by_id. rewrite map_map. apply map_ext.
  intros s. destruct (Nat.eqb_spec (id s) k); simpl; congruence.
Qed.

Lemma retouched_highres_failed msg sel s : retouched s (highres_failed msg sel s).
Proof.
  unfold highres_failed.
  eapply retouched_trans; [|apply retouched_addToast].
  eapply retouched_trans; [apply (retouched_setScenes (id sel) (with_isGeneratingHighRes false)); done|].
  by split.
Qed.

Lemma retouched_handleGenerateHighRes s : retouched s (handleGenerateHighRes s).
Proof.
  assert (forall sel s0, retouched s0 (requestHighRes sel s0)) as Hreq.
  { intros sel s0. unfold requestHighRes.
    set (s1 := setSelectedScene _ _).
    assert (retouched s0 s1) as H1.
    { eapply retouched_trans;
        [apply (retouched_setScenes (id sel) (with_isGeneratingHighRes true)); done|].
      by split. }
    destruct (API_KEY _).
    - eapply retouched_trans; [exact H1 | by split].
    - eapply retouched_trans; [exact H1 | apply retouched_highres_failed]. }
  unfold handleGenerateHighRes.
  destruct (selectedScene s) as [sel|]; [|apply retouched_refl].
  destruct (hasSelectedApiKey (host s)); [apply Hreq|].
  destruct (hasSelectedApiKey (host (openSelectKey s))); [|by split].
  eapply retouched_trans; [apply retouched_openSelectKey | apply Hreq].
Qed.

Lemma same_ids_highres_settled sel reply s : same_ids s (highres_settled sel reply s).
Proof.
  unfold highres_settled.
  destruct (image_response reply) as [[url|]|msg];
    try (apply retouched_same_ids, retouched_highres_failed).
  destruct (truthy_string (Some url));
    [|apply retouched_same_ids, retouched_highres_failed].
  split; [done|]. simpl. by apply ids_update_const.
Qed.

(** *** The generation effect *)

Lemma deps_eqb_spec a b : deps_eqb a b = true <-> a = b.
Proof.
  destruct a as [a1 a2], b as [b1 b2]. unfold deps_eqb. simpl.
  rewrite andb_true_iff, Nat.eqb_eq, Bool.eqb_true_iff.
  split; [intros [-> ->]; done | intros [= -> ->]; done].
Qed.

Lemma deps_eqb_refl a : deps_eqb a a = true.
Proof. by apply deps_eqb_spec. Qed.

Lemma generateStep_idle s : isGenerating (stats s) = false -> generateStep s = s.
Proof.
  intros H. unfold generateStep. rewrite H. simpl. by rewrite andb_false_r.
Qed.

Lemma generateStep_deps s :
  deps (generateStep s) = deps s \/ isGenerating (stats (generateStep s)) = false.
Proof.
  unfold generateStep, batch_failed.
  destruct (negb _ || _ || _).
  - destruct (_ && _); [by right | by left].
  - destruct (API_KEY _); [by left | by right].
Qed.

Lemma generateStep_scenes s : scenes (generateStep s) = scenes s.
Proof.
  unfold generateStep, batch_failed.
  destruct (negb _ || _ || _); [destruct (_ && _) | destruct (API_KEY _)]; done.
Qed.

Lemma generateStep_counters s :
  totalGenerated (stats (generateStep s)) = totalGenerated (stats s) /\
  batchesCompleted (stats (generateStep s)) = batchesCompleted (stats s).
Proof.
  unfold generateStep, batch_failed.
  destruct (negb _ || _ || _); [destruct (_ && _) | destruct (API_KEY _)]; done.
Qed.

(** Two rounds are enough: a third one finds the dependencies unchanged. *)
Lemma run_effects_settled n prev s :
  run_effects (2 + n) prev s = run_effects 2 prev s.
Proof.
  simpl. destruct (deps_eqb prev (deps s)); [done|].
  set (s1 := generateStep (cleanup s)).
  destruct (deps_eqb (deps s) (deps s1)) eqn:E1; [done|].
  assert (isGenerating (stats s1) = false) as Hidle.
  { destruct (generateStep_deps (cleanup s)) as [H|H]; [|done].
    fold s1 in H. change (deps (cleanup s)) with (deps s) in H.
    rewrite H, deps_eqb_refl in E1. done. }
  assert (generateStep (cleanup s1) = cleanup s1) as ->
    by (by apply generateStep_idle).
  destruct n; [done|]. simpl.
  change (deps (cleanup s1)) with (deps s1). by rewrite deps_eqb_refl.
Qed.

(** What a render can do: nothing, or end on a run of [generateStep] in a
    fresh closure over a state with the same collection and counters. *)
Lemma render_cases prev s :
  (deps s = prev /\ render prev s = s) \/
  (deps s <> prev /\
   exists x, render prev s = generateStep (cleanup x) /\
             scenes x = scenes s /\
             totalGenerated (stats x) = totalGenerated (stats s) /\
             batchesCompleted (stats x) = batchesCompleted (stats s)).
Proof.
  unfold render. simpl.
  destruct (deps_eqb prev (deps s)) eqn:E.
  - left. apply deps_eqb_spec in E. done.
  - right. split; [intros <-; by rewrite deps_eqb_refl in E|].
    destruct (deps_eqb (deps s) (deps (generateStep (cleanup s)))).
    + by exists s.
    + exists (generateStep (cleanup s)).
      rewrite generateStep_scenes.
      destruct (generateStep_counters (cleanup s)) as [-> ->]. done.
Qed.

Lemma render_scenes prev s : scenes (render prev s) = scenes s.
Proof.
  destruct (render_cases prev s) as [[_ ->]|[_ (x & -> & Hx & _)]]; [done|].
  by rewrite generateStep_scenes.
Qed.

Lemma render_counters prev s :
  totalGenerated (stats (render prev s)) = totalGenerated (stats s) /\
  batchesCompleted (stats (render prev s)) = batchesCompleted (stats s).
Proof.
  destruct (render_cases prev s) as [[_ ->]|[_ (x & -> & _ & H1 & H2)]]; [done|].
  destruct (generateStep_counters (cleanup x)) as [-> ->]. done.
Qed.

(** While the loop is off a render changes nothing but the [isMounted]
    flags of old closures. *)
Lemma render_idle prev s :
  isGenerating (stats s) = false ->
  render prev s = s \/ render prev s = cleanup s.
Proof.
  intros H. unfold render. simpl.
  destruct (deps_eqb prev (deps s)); [by left|]. right.
  rewrite (generateStep_idle (cleanup s)) by done.
  change (deps (cleanup s)) with (deps s). by rewrite deps_eqb_refl.
Qed.

(** After a change of the dependencies, while generating below the goal
    with a key, exactly one new batch call is started from the collection
    as it is. *)
Lemma render_continue prev s :
  deps s <> prev -> isGenerating (stats s) = true -> stopRef s = false ->
  API_KEY (host s) = true -> length (scenes s) < TOTAL_GOAL ->
  render prev s
  = countBatchRequest
      (setBatchCalls
         (fun calls => calls ++
            [mkBatchCall (length (scenes s) + 1)
               (Nat.min BATCH_SIZE (TOTAL_GOAL - length (scenes s))) true])
         (cleanup s)).
Proof.
  intros Hd Hg Hs Hk Hl. unfold render. simpl.
  destruct (deps_eqb prev (deps s)) eqn:E;
    [apply deps_eqb_spec in E; congruence|].
  assert (generateStep (cleanup s)
          = countBatchRequest
              (setBatchCalls
                 (fun calls => calls ++
                    [mkBatchCall (length (scenes s) + 1)
                       (Nat.min BATCH_SIZE (TOTAL_GOAL - length (scenes s))) true])
                 (cleanup s))) as ->.
  { unfold generateStep. simpl. rewrite Hg, Hs, Hk. simpl.
    destruct (Nat.leb_spec TOTAL_GOAL (length (scenes s))); [lia|]. done. }
  unfold deps at 2. simpl. fold (deps s). by rewrite deps_eqb_refl.
Qed.


(** *** The invariant of the loop *)

Lemma cleanup_unmounted s c : In c (batchCalls (cleanup s)) -> isMounted c = false.
Proof. simpl. intros H. apply in_map_iff in H as (c' & <- & _). done. Qed.

Lemma generateStep_establishes x :
  (forall c, In c (batchCalls x) -> isMounted c = false) ->
  mounted_ok (generateStep x) /\ goal_ok (generateStep x).
Proof.
  intros Hx.
  assert (forall y : State, batchCalls y = batchCalls x ->
            forall c, In c (batchCalls y) -> isMounted c = true -> False) as Hno.
  { intros y -> c Hc Hm. rewrite (Hx c Hc) in Hm. done. }
  unfold generateStep, batch_failed, mounted_ok, goal_ok.
  destruct (isGenerating (stats x)) eqn:Hg,
           (Nat.leb_spec TOTAL_GOAL (length (scenes x))) as [Hl|Hl],
           (stopRef x) eqn:Hs, (API_KEY (host x)) eqn:Hk; simpl;
    try (split; [intros c Hc Hm; by destruct (Hno x eq_refl c Hc Hm) | done || lia]).
  split; [|lia]. intros c Hc Hm. apply in_app_iff in Hc as [Hc|[<-|[]]].
  - by destruct (Hno x eq_refl c Hc Hm).
  - simpl. done.
Qed.

Lemma render_invariant prev s :
  ids_ok s -> total_ok s ->
  (deps s = prev -> mounted_ok s /\ goal_ok s) ->
  loop_invariant (render prev s).
Proof.
  intros Hi Ht Hm. unfold loop_invariant, ids_ok, total_ok in *.
  rewrite render_scenes. destruct (render_counters prev s) as [-> _].
  split; [done|]. split; [done|].
  destruct (render_cases prev s) as [[Hd ->]|[_ (x & -> & Hx & _)]]; [by apply Hm|].
  apply generateStep_establishes. apply cleanup_unmounted.
Qed.

Lemma same_ids_invariant s s' :
  same_ids s s' -> loop_invariant s -> loop_invariant s'.
Proof.
  intros Hs (Hi & Ht & Hm & Hg). pose proof (same_ids_length _ _ Hs) as Hlen.
  destruct Hs as [Hl Hids]. unfold loop_state in Hl.
  injection Hl as Hst Hstop Hcalls Hreq.
  unfold loop_invariant, ids_ok, total_ok, mounted_ok, goal_ok in *.
  rewrite Hids, Hlen, Hst, Hcalls. done.
Qed.

Lemma handle_retouched ev s :
  loop_event ev = false ->
  (forall k reply, ev <> HighResSettles k reply) ->
  retouched s (handle ev s).
Proof.
  intros Hev Hhr. destruct ev; try discriminate Hev; simpl.
  - apply retouched_handleToggleFavorite.
  - by split.
  - by split.
  - by split.
  - apply retouched_handleGenerateImage.
  - apply retouched_handleGeneratePageThumbnails.
  - apply retouched_handleGeneratePageThumbnails_chunked.
  - destruct (thumbCalls s !! k) as [c|]; [|apply retouched_refl].
    eapply retouched_trans; [|apply retouched_owner_resumed].
    eapply retouched_trans; [|apply retouched_thumbnail_settled]. by split.
  - by split.
  - by split.
  - apply retouched_handleGenerateHighRes.
  - by destruct (Hhr k reply).
  - by split.
Qed.

Lemma handle_same_ids ev s : loop_event ev = false -> same_ids s (handle ev s).
Proof.
  intros Hev.
  destruct ev; try (apply retouched_same_ids, handle_retouched; done).
  simpl. destruct (highResCalls s !! k) as [sel|]; [|by split].
  eapply same_ids_trans; [|apply same_ids_highres_settled]. by split.
Qed.

Lemma handle_invariant ev s :
  loop_invariant s ->
  ids_ok (handle ev s) /\ total_ok (handle ev s) /\
  (deps (handle ev s) = deps s -> mounted_ok (handle ev s) /\ goal_ok (handle ev s)).
Proof.
  intros Hinv. destruct (loop_event ev) eqn:Hev.
  2:{ destruct (same_ids_invariant _ _ (handle_same_ids ev s Hev) Hinv)
        as (? & ? & ? & ?). done. }
  destruct Hinv as (Hi & Ht & Hm & Hg).
  unfold ids_ok, total_ok, mounted_ok, goal_ok, deps in *.
  destruct ev; try discriminate Hev; simpl.
  - (* Start *)
    unfold handleStart. destruct (hasSelectedApiKey (host s)); simpl; [|done].
    destruct (Nat.eqb_spec (length (scenes s)) 0) as [H0|H0]; simpl.
    + split; [done|]. split; [lia|]. intros Hd.
      split; [|intros; pose proof TOTAL_GOAL_eq; lia].
      intros c Hc Hmc. destruct (Hm c Hc Hmc) as (_ & ? & ? & ?). done.
    + split; [done|]. split; [done|]. intros Hd.
      apply (f_equal fst) in Hd. simpl in Hd.
      split; [|intros Hl; specialize (Hg Hl); congruence].
      intros c Hc Hmc. destruct (Hm c Hc Hmc) as (_ & ? & ? & ?). done.
  - (* Stop *)
    split; [done|]. split; [done|]. intros Hd.
    apply (f_equal fst) in Hd. simpl in Hd. split; [|done].
    intros c Hc Hmc. destruct (Hm c Hc Hmc) as (? & _). congruence.
  - (* InstantLoad *)
    rewrite ids_generateCuratedBatch, length_generateCuratedBatch.
    split; [done|]. split; [done|]. intros Hd.
    apply (f_equal fst) in Hd. simpl in Hd. split; [|done].
    intros c Hc Hmc. destruct (Hm c Hc Hmc) as (? & _). congruence.
  - (* BatchSettles *)
    destruct (batchCalls s !! k) as [c|] eqn:Hk; [|by eauto 10].
    assert (In c (batchCalls s)) as Hc
      by (apply list_elem_of_In; by eapply list_elem_of_lookup_2).
    assert (forall c', In c' (delete k (batchCalls s)) -> In c' (batchCalls s)) as Hsub.
    { intros c' Hc'. apply list_elem_of_In in Hc'. apply list_elem_of_In.
      by eapply list_elem_of_delete_inv. }
    unfold batch_settled, batch_failed. simpl.
    destruct (batch_response (call_startId c) reply) as [newBatch|msg] eqn:Hr.
    + destruct (isMounted c) eqn:Hmc; simpl.
      2:{ split; [done|]. split; [done|]. intros _. split; [|done].
          intros c' Hc'. apply Hm. by apply Hsub. }
      destruct (stopRef s); simpl.
      { split; [done|]. split; [done|]. intros _. split; [|done].
        intros c' Hc'. apply Hm. by apply Hsub. }
      destruct (Hm c Hc Hmc) as (_ & Hstart & _ & _).
      apply batch_response_length in Hr. rewrite Hstart in Hr.
      split; [|split; [|intros Hd; apply (f_equal snd) in Hd; simpl in Hd; lia]].
      * rewrite map_app, length_app, seq_app, Hi, Hr. do 2 f_equal. lia.
      * rewrite length_app. lia.
    + destruct (isMounted c) eqn:Hmc; simpl.
      * split; [done|]. split; [done|]. intros Hd.
        apply (f_equal fst) in Hd. simpl in Hd.
        destruct (Hm c Hc Hmc) as (? & _). congruence.
      * split; [done|]. split; [done|]. intros _. split; [|done].
        intros c' Hc'. apply Hm. by apply Hsub.
  - (* Tick *)
    unfold tick. destruct (isGenerating (stats s)) eqn:Hgen; simpl; [|by rewrite Hgen].
    rewrite Hgen. done.
Qed.

Lemma step_invariant s ev : loop_invariant s -> loop_invariant (step s ev).
Proof.
  intros Hinv. destruct (handle_invariant ev s Hinv) as (Hi & Ht & Hm).
  by apply render_invariant.
Qed.

Lemma run_invariant evs : forall s, loop_invariant s -> loop_invariant (run s evs).
Proof.
  induction evs as [|ev evs IH]; intros s Hinv; simpl; [done|].
  apply IH. by apply step_invariant.
Qed.

Lemma initial_invariant h : loop_invariant (initial h).
Proof.
  split; [done|]. split; [done|]. split; [intros c []|].
  unfold goal_ok. done.
Qed.

(** *** Stopping while a batch is in flight *)

Lemma delivered_length startId reply newBatch :
  batch_response startId reply = Fulfilled newBatch ->
  delivered reply = length newBatch /\ succeeded reply = true.
Proof.
  unfold delivered, succeeded. destruct reply as [|text parsed]; simpl; [done|].
  destruct (truthy_string text); simpl; [|by intros [= <-]].
  destruct parsed; try done. intros [= <-].
  by rewrite !length_number_items.
Qed.

Lemma succeeded_response startId reply :
  succeeded reply = true ->
  exists newBatch, batch_response startId reply = Fulfilled newBatch.
Proof.
  unfold succeeded. destruct reply as [|text parsed]; simpl; [done|].
  destruct (truthy_string text); simpl; [|by eauto].
  destruct parsed; try done. by eauto.
Qed.

(** While the loop is off, an event other than a start leaves it off and
    sends no batch request. *)
Lemma idle_step s ev :
  isGenerating (stats s) = false -> is_start ev = false ->
  isGenerating (stats (step s ev)) = false /\
  batchRequests (step s ev) = batchRequests s.
Proof.
  intros Hidle Hev.
  assert (isGenerating (stats (handle ev s)) = false /\
          batchRequests (handle ev s) = batchRequests s) as [H1 H2].
  { destruct (loop_event ev) eqn:Hl.
    - destruct ev; try discriminate; simpl; try done.
      + destruct (batchCalls s !! k) as [c|]; [|done].
        unfold batch_settled, batch_failed.
        destruct (batch_response _ _); destruct (isMounted c); simpl; try done.
        by destruct (stopRef s).
      + unfold tick. by rewrite Hidle.
    - destruct (handle_same_ids ev s Hl) as [Hs _]. unfold loop_state in Hs.
      injection Hs as -> _ _ ->. done. }
  unfold step. destruct (render_idle (deps s) _ H1) as [-> | ->]; done.
Qed.

Lemma idle_run evs : forall s,
  isGenerating (stats s) = false ->
  batchRequests (run s (List.filter (fun ev => negb (is_start ev)) evs))
  = batchRequests s.
Proof.
  induction evs as [|ev evs IH]; intros s Hidle; simpl; [done|].
  destruct (is_start ev) eqn:Hev; simpl; [by apply IH|].
  destruct (idle_step s ev Hidle Hev) as [H1 H2].
  rewrite IH by done. done.
Qed.



(** *** The goal as a bound on the collection *)

(** C2 as the specification words it does not hold: the first step asks for
    50 records; when the remote source answers with 1001, all of them are
    appended and the collection is longer than the goal. *)
Lemma collection_overruns_goal :
  batchCalls (run (initial ready_host) [Start 0]) = [mkBatchCall 1 50 true] /\
  TOTAL_GOAL
  < length (scenes (run (initial ready_host)
                      [Start 0;
                       BatchSettles 0 (answer (repeat (sample_item "x") 1001))])).
Proof. vm_compute. split; [done | lia]. Qed.

Lemma honest_step_length s ev :
  loop_invariant s -> length (scenes s) <= TOTAL_GOAL ->
  within_request s ev = true ->
  length (scenes (step s ev)) <= TOTAL_GOAL.
Proof.
  intros (Hi & Ht & Hm & Hg) Hlen Hw. unfold step. rewrite render_scenes.
  destruct (loop_event ev) eqn:Hl.
  2:{ by rewrite (same_ids_length _ _ (handle_same_ids ev s Hl)). }
  destruct ev; try discriminate; simpl.
  - unfold handleStart. destruct (hasSelectedApiKey _); simpl; [|done].
    by destruct (_ =? 0).
  - done.
  - by rewrite length_generateCuratedBatch.
  - simpl in Hw. destruct (batchCalls s !! k) as [c|] eqn:Hk; [|done].
    assert (In c (batchCalls s)) as Hc
      by (apply list_elem_of_In; by eapply list_elem_of_lookup_2).
    unfold batch_settled, batch_failed. simpl.
    destruct (batch_response (call_startId c) reply) as [newBatch|msg] eqn:Hr.
    + destruct (isMounted c) eqn:Hmc; simpl; [|done].
      destruct (stopRef s); simpl; [done|].
      destruct (Hm c Hc Hmc) as (_ & _ & Hcount & Hlt).
      apply delivered_length in Hr as [Hd _]. apply Nat.leb_le in Hw.
      rewrite length_app. lia.
    + by destruct (isMounted c).
  - unfold tick. by destruct (isGenerating _).
Qed.

Lemma honest_run_length evs : forall s,
  loop_invariant s -> length (scenes s) <= TOTAL_GOAL ->
  honest_run s evs = true ->
  length (scenes (run s evs)) <= TOTAL_GOAL.
Proof.
  induction evs as [|ev evs IH]; intros s Hinv Hlen Hh; simpl; [done|].
  simpl in Hh. apply andb_true_iff in Hh as [Hw Hh].
  apply IH; [by apply step_invariant | by apply honest_step_length | done].
Qed.

(** C2, amended: as long as every answer of the remote source holds at most
    the number of records its call asked for, the collection never grows
    beyond the goal of 1000; the call in flight of the mounted closure asks
    for [min(BATCH_SIZE, TOTAL_GOAL - size)] records, and at the goal the
    loop is off. *)
Theorem collection_within_goal h evs :
  honest_run (initial h) evs = true ->
  let s := run (initial h) evs in
  length (scenes s) <= 1000 /\
  (forall c, In c (batchCalls s) -> isMounted c = true ->
     call_count c = Nat.min 50 (1000 - length (scenes s))) /\
  (1000 <= length (scenes s) -> isGenerating (stats s) = false).
Proof.
  intros Hh s. rewrite <- TOTAL_GOAL_eq, <- BATCH_SIZE_eq.
  pose proof (run_invariant evs _ (initial_invariant h)) as (_ & _ & Hm & Hg).
  split; [|split].
  - apply honest_run_length; [apply initial_invariant | simpl; lia | done].
  - intros c Hc Hmc. by destruct (Hm c Hc Hmc) as (_ & _ & ? & _).
  - exact Hg.
Qed.

(** *** Counters and numbering over a run *)




(** The counter of generated records is the length of the collection after
    any sequence of events. *)
Lemma total_matches_length h evs :
  totalGenerated (stats (run (initial h) evs)) = length (scenes (run (initial h) evs)).
Proof.
  by pose proof (run_invariant evs _ (initial_invariant h)) as (_ & Ht & _).
Qed.




(** After a stop and a start with a key, below the goal, the resumed loop
    has a call in flight, numbered from the length on. *)
Lemma resumed_call_exists h evs now :
  let s := run (initial h) evs in
  hasSelectedApiKey (host s) = true -> API_KEY (host s) = true ->
  length (scenes s) < TOTAL_GOAL ->
  exists c, In c (batchCalls (run s [Stop; Start now])) /\ isMounted c = true /\
            call_startId c = length (scenes s) + 1.
Proof.
  intros s Hsel Hkey Hlt. simpl.
  set (stopped := step s Stop).
  assert (scenes stopped = scenes s /\ host stopped = host s /\
          isGenerating (stats stopped) = false) as (A1 & A2 & A3).
  { subst stopped. unfold step.
    destruct (render_idle (deps s) (handle Stop s) eq_refl) as [-> | ->]; done. }
  unfold step at 1. simpl handle. unfold handleStart. rewrite A2, Hsel. simpl.
  set (s' := addToast _ _ _).
  assert (scenes s' = scenes s /\ isGenerating (stats s') = true /\
          stopRef s' = false /\ API_KEY (host s') = true) as (B1 & B2 & B3 & B4).
  { subst s'. destruct (_ =? 0); simpl; by rewrite ?A1, ?A2. }
  clearbody s'. rewrite render_continue; try done.
  - eexists. split; [simpl; apply in_app_iff; right; by left|]. simpl.
    by rewrite B1.
  - unfold deps. rewrite A3, B2. intros [= ?].
  - by rewrite B1.
Qed.

(** *** Records are kept *)



(** *** Image requests in flight *)

(** C5 fails on the code. In [App.tsx] a card asks for the thumbnail of
    record 1, and while that request is pending the page loader visits the
    displayed page and asks for it again. In the revised page loader the
    snapshot leaves out pending records, but a card can request record 4
    while the first chunk is in flight, and the loader then requests it
    again from its snapshot. Every event is one the page offers. *)
Theorem thumbnail_requested_twice :
  let generated :=
    [Start 0;
     BatchSettles 0 (answer [sample_item "a"; sample_item "b"; sample_item "c";
                             sample_item "d"; sample_item "e"]);
     Stop] in
  let first := generated ++ [GenerateImage 1 "a"; GeneratePageThumbnails] in
  let second :=
    generated ++ [GeneratePageThumbnailsChunked false; GenerateImage 4 "d";
                  ThumbnailSettles 0 image_answer; ThumbnailSettles 0 image_answer;
                  ThumbnailSettles 0 image_answer] in
  (offered_run (initial ready_host) first = true /\
   thumbnails_in_flight 1 (run (initial ready_host) (generated ++ [GenerateImage 1 "a"])) = 1 /\
   thumbnails_in_flight 1 (run (initial ready_host) first) = 2) /\
  (offered_run (initial ready_host) second = true /\
   thumbnails_in_flight 4 (run (initial ready_host) second) = 2).
Proof. vm_compute. done. Qed.

End Container.

Transparent TOTAL_GOAL BATCH_SIZE.

(** ** Instances *)

Lemma collection_within_goal_witness :
  honest_run (App.initial ready_host)
    [App.Start 0; App.BatchSettles 0 (answer [sample_item "x"; sample_item "y"])] = true /\
  length (App.scenes (App.run (App.initial ready_host)
    [App.Start 0; App.BatchSettles 0 (answer [sample_item "x"; sample_item "y"])])) <= 1000.
Proof.
  assert (honest_run (App.initial ready_host)
            [App.Start 0; App.BatchSettles 0 (answer [sample_item "x"; sample_item "y"])]
          = true) as H by reflexivity.
  split; [exact H|].
  exact (proj1 (collection_within_goal ready_host _ H)).
Defined.


(** ** The scenarios of the specification, run on the model *)

(** Scenario A: twenty batches of fifty records reach the goal; the loop
    turns itself off with one notice and no call is left in flight. *)
Example scenario_goal_reached :
  let s :=
    App.run (App.initial ready_host)
      (App.Start 0
         :: map (App.BatchSettles 0) (repeat (answer (repeat (sample_item "x") 50)) 20)) in
  totalGenerated (App.stats s) = 1000 /\
  batchesCompleted (App.stats s) = 20 /\
  isGenerating (App.stats s) = false /\
  App.batchCalls s = [] /\
  App.batchRequests s = 20 /\
  List.filter (fun t => String.eqb (message t) "Generation Goal Reached!") (App.toasts s)
    = [mkToast "Generation Goal Reached!" success].
Proof. vm_compute. done. Qed.

(** Scenario B: the third batch fails; the hundred records of the first two
    stay, the loop is off, and one failure notice is shown. *)
Example scenario_third_batch_fails :
  let s :=
    App.run (App.initial ready_host)
      [App.Start 0;
       App.BatchSettles 0 (answer (repeat (sample_item "x") 50));
       App.BatchSettles 0 (answer (repeat (sample_item "x") 50));
       App.BatchSettles 0 Service.CallRejected] in
  length (App.scenes s) = 100 /\
  isGenerating (App.stats s) = false /\
  App.stopRef s = true /\
  List.filter (fun t => match type t with error => true | _ => false end) (App.toasts s)
    = [mkToast "Generation failed. Check console." error].
Proof. vm_compute. done. Qed.

(** Scenario C: five local records from id 1. *)
Example scenario_local_five :
  map id (Service.generateCuratedBatch 1 5 (fun k => mkRandom k 7)) = [1; 2; 3; 4; 5] /\
  map category (Service.generateCuratedBatch 1 5 (fun k => mkRandom k 7))
    = ["Horror"; "Underwater"; "Historical"; "Nature"; "Adventure"].
Proof. vm_compute. done. Qed.

(** Scenario D: three favourites out of twelve records give a favourites
    view of these three, in order, on one page. *)
Example scenario_three_favourites :
  let scenes :=
    View.toggleFavorite 11 (View.toggleFavorite 2 (View.toggleFavorite 7
      (map sample_scene (seq 1 12)))) in
  map id (View.filteredScenes true scenes) = [2; 7; 11] /\
  View.totalPages (View.filteredScenes true scenes) = 1 /\
  map id (View.displayedScenes (View.filteredScenes true scenes) 1) = [2; 7; 11].
Proof. vm_compute. done. Qed.

(** * Further properties of the code *)

(** ** The image calls of the remote source *)

Section ImageSource.
Import Service.

Lemma first_image_None parts :
  first_image parts = None <-> forallb (fun p => negb (carries_image p)) parts = true.
Proof.
  induction parts as [|part parts IH]; simpl; [done|].
  unfold carries_image at 1.
  destruct (inlineData part) as [[mimeType [|a d]]|]; simpl; try done.
Qed.

Lemma first_image_Some parts url :
  first_image parts = Some url ->
  exists before part mimeType data rest,
    parts = before ++ part :: rest /\
    forallb (fun p => negb (carries_image p)) before = true /\
    inlineData part = Some (mimeType, data) /\ data <> "" /\
    url = "data:" +:+ mimeType +:+ ";base64," +:+ data.
Proof.
  induction parts as [|part parts IH]; simpl; [done|].
  destruct (inlineData part) as [[mimeType [|a d]]|] eqn:E.
  - intros H. destruct (IH H) as (before & p & m & dt & rest & -> & Hb & Hp & Hd & ->).
    exists (part :: before), p, m, dt, rest. simpl. unfold carries_image at 1.
    rewrite E. done.
  - intros [= <-]. exists [], part, mimeType, (String a d), parts. done.
  - intros H. destruct (IH H) as (before & p & m & dt & rest & -> & Hb & Hp & Hd & ->).
    exists (part :: before), p, m, dt, rest. simpl. unfold carries_image at 1.
    rewrite E. done.
Qed.

(** X1: a thumbnail or high-res call returns an address only for the first
    part of the answer that carries image data, as the data URL of that
    part, which is never the empty string; it returns [null] exactly when no
    part carries image data (also when the answer has no parts at all); and
    it throws exactly when the key is missing or the remote call rejects. *)
Theorem generateSceneThumbnail_outcome API_KEY reply :
  match generateSceneThumbnail API_KEY reply with
  | Fulfilled (Some url) =>
      API_KEY = true /\ truthy_string (Some url) = true /\
      exists parts before part mimeType data rest,
        reply = ImageResponse (Some parts) /\
        parts = before ++ part :: rest /\
        forallb (fun p => negb (carries_image p)) before = true /\
        inlineData part = Some (mimeType, data) /\ data <> "" /\
        url = "data:" +:+ mimeType +:+ ";base64," +:+ data
  | Fulfilled None =>
      API_KEY = true /\
      exists parts, reply = ImageResponse parts /\
        forallb (fun p => negb (carries_image p)) (default [] parts) = true
  | Thrown msg =>
      (API_KEY = false /\ msg = "API Key is missing") \/
      (API_KEY = true /\ reply = ImageRejected msg)
  end.
Proof.
  unfold generateSceneThumbnail, image_response.
  destruct API_KEY; simpl; [|by left].
  destruct reply as [msg|parts]; [by right|].
  destruct (first_image (default [] parts)) as [url|] eqn:E.
  - split; [done|].
    destruct (first_image_Some _ _ E) as (before & part & m & d & rest & Hp & Hb & Hi & Hd & ->).
    split; [done|]. destruct parts as [parts|]; simpl in Hp.
    + exists parts, before, part, m, d, rest. done.
    + by destruct before.
  - split; [done|]. exists parts. split; [done|]. by apply first_image_None.
Qed.

End ImageSource.

(** ** Pages *)

Section Pages.

Lemma displayedScenes_zero (filtered : list SceneConcept) :
  View.displayedScenes filtered 0 = [].
Proof.
  unfold View.displayedScenes, View.slice, ITEMS_PER_PAGE. simpl.
  match goal with |- take ?n _ = _ => replace n with 0 by lia end.
  done.
Qed.

(** X2: a page index shows no record exactly when it is 0 or beyond the
    page count; nothing is thrown for such an index. *)
Theorem displayedScenes_empty_iff (filtered : list SceneConcept) (p : nat) :
  View.displayedScenes filtered p = [] <-> p = 0 \/ View.totalPages filtered < p.
Proof.
  destruct p as [|p].
  { rewrite displayedScenes_zero. split; [by left | done]. }
  rewrite displayedScenes_take_drop by lia.
  pose proof (totalPages_bounds filtered) as Hb.
  rewrite <- length_zero_iff_nil, length_take, length_drop.
  split; [intros H; right; lia | intros [H|H]; lia].
Qed.

Lemma pages_concat (filtered : list SceneConcept) n :
  concat (map (View.displayedScenes filtered) (seq 1 n)) = take (10 * n) filtered.
Proof.
  induction n as [|n IH]; [by rewrite take_0|].
  rewrite seq_S, map_app, concat_app, IH. simpl concat. rewrite app_nil_r.
  rewrite displayedScenes_take_drop by lia.
  match goal with
  | |- _ ++ take 10 (drop ?a _) = _ => replace a with (10 * n) by lia
  end.
  rewrite take_take_drop. f_equal. lia.
Qed.

(** X3: the pages 1, 2, ..., [totalPages] laid end to end are the filtered
    collection: paging shows every record once, in order. *)
Theorem pages_cover_collection (filtered : list SceneConcept) :
  concat (map (View.displayedScenes filtered) (seq 1 (View.totalPages filtered)))
  = filtered.
Proof.
  rewrite pages_concat. apply take_ge.
  pose proof (totalPages_bounds filtered). lia.
Qed.

End Pages.

(** ** Placeholders of the local source *)

Section Placeholders.
Import Service.







End Placeholders.

(** ** Favourites *)

Section Favourites.

(** X5: toggling the favourite flag of a record twice gives back the
    collection as a user sees it: every field of every record is as before,
    an unset flag reading as [false]. *)
Theorem toggleFavorite_twice (scenes : list SceneConcept) (k : nat) :
  map shown (View.toggleFavorite k (View.toggleFavorite k scenes)) = map shown scenes.
Proof.
  unfold View.toggleFavorite, update_by_id. rewrite !map_map. apply map_ext.
  intros s. destruct (id s =? k) eqn:E; simpl; rewrite E; [|done].
  unfold shown. simpl. by rewrite negb_involutive.
Qed.

Lemma toggleFavorite_absent (scenes : list SceneConcept) k :
  ~ In k (map id scenes) -> View.toggleFavorite k scenes = scenes.
Proof.
  induction scenes as [|s scenes IH]; simpl; [done|]. intros H.
  destruct (Nat.eqb_spec (id s) k) as [E|E]; [by destruct H; left|].
  f_equal. apply IH. intros Hin. apply H. by right.
Qed.

(** X6: in a collection without duplicate ids, toggling record [k] moves the
    number of favourites by exactly one: down when the record was a
    favourite, up when it was not. *)
Theorem toggleFavorite_count (scenes : list SceneConcept) (s : SceneConcept) :
  NoDup (map id scenes) -> In s scenes ->
  View.favoriteCount (View.toggleFavorite (id s) scenes)
  = if truthy_flag (isFavorite s) then View.favoriteCount scenes - 1
    else View.favoriteCount scenes + 1.
Proof.
  unfold View.favoriteCount.
  induction scenes as [|x scenes IH]; simpl; [done|].
  intros Hnd Hin. apply NoDup_cons in Hnd as [Hx Hnd].
  destruct Hin as [->|Hin].
  - rewrite Nat.eqb_refl. fold (View.toggleFavorite (id s) scenes).
    rewrite toggleFavorite_absent by (rewrite <- list_elem_of_In; done).
    simpl. destruct (truthy_flag (isFavorite s)); simpl; lia.
  - fold (View.toggleFavorite (id s) scenes).
    destruct (Nat.eqb_spec (id x) (id s)) as [E|E].
    { destruct Hx. rewrite E. apply list_elem_of_In, in_map. done. }
    specialize (IH Hnd Hin).
    assert (0 < length (List.filter (fun s0 => truthy_flag (isFavorite s0)) scenes)
            \/ truthy_flag (isFavorite s) = false) as Hpos.
    { destruct (truthy_flag (isFavorite s)) eqn:Hs; [left | by right].
      assert (In s (List.filter (fun s0 => truthy_flag (isFavorite s0)) scenes)) as Hf
        by (by apply filter_In).
      destruct (List.filter _ scenes); [done | simpl; lia]. }
    destruct (truthy_flag (isFavorite x)); simpl; rewrite IH;
      destruct (truthy_flag (isFavorite s)); lia.
Qed.

Lemma toggleFavorite_count_witness :
  NoDup (map id (map sample_scene (seq 1 3))) /\
  In (sample_scene 2) (map sample_scene (seq 1 3)) /\
  View.favoriteCount (View.toggleFavorite 2 (map sample_scene (seq 1 3))) = 1.
Proof.
  assert (NoDup (map id (map sample_scene (seq 1 3)))) as H1
    by (apply (bool_decide_unpack _); vm_compute; exact I).
  assert (In (sample_scene 2) (map sample_scene (seq 1 3))) as H2
    by (simpl; auto).
  split; [exact H1|]. split; [exact H2|].
  exact (toggleFavorite_count (map sample_scene (seq 1 3)) (sample_scene 2) H1 H2).
Defined.

End Favourites.

(** ** The exported list *)

Section ExportedList.
Import Download.

Lemma has_char_append c (a b : string) :
  has_char c (a +:+ b) = has_char c a || has_char c b.
Proof.
  induction a as [|x a IH]; [done|].
  change (String x a +:+ b) with (String x (a +:+ b)).
  cbn [has_char]. by rewrite IH, orb_assoc.
Qed.

Lemma split_at_plain c (p : string) : has_char c p = false -> split_at c p = [p].
Proof.
  induction p as [|x p IH]; simpl; [done|]. intros H.
  apply orb_false_iff in H as [-> H]. by rewrite IH.
Qed.

Lemma split_at_piece c (p rest : string) :
  has_char c p = false ->
  split_at c (p +:+ String c rest) = p :: split_at c rest.
Proof.
  induction p as [|x p IH].
  - intros _. change ("" +:+ String c rest) with (String c rest).
    simpl. by rewrite Ascii.eqb_refl.
  - change (String x p +:+ String c rest) with (String x (p +:+ String c rest)).
    simpl. intros H. apply orb_false_iff in H as [-> H]. by rewrite IH.
Qed.

Lemma split_at_join c (pieces : list string) :
  pieces <> [] -> Forall (fun p => has_char c p = false) pieces ->
  split_at c (join (String c "") pieces) = pieces.
Proof.
  induction pieces as [|p pieces IH]; [done|]. intros _ Hall.
  apply Forall_cons in Hall as [Hp Hall].
  destruct pieces as [|q pieces]; [by apply split_at_plain|].
  change (join (String c "") (p :: q :: pieces))
    with (p +:+ String c "" +:+ join (String c "") (q :: pieces)).
  change (String c "" +:+ join (String c "") (q :: pieces))
    with (String c (join (String c "") (q :: pieces))).
  rewrite split_at_piece by done. f_equal. by apply IH.
Qed.

Lemma number_to_string_digits n : has_char LF (number_to_string n) = false.
Proof.
  unfold number_to_string. generalize (Nat.to_uint n). intros d.
  induction d; simpl; done.
Qed.

Lemma export_line_one_line s :
  has_char LF (category s) = false -> has_char LF (description s) = false ->
  has_char LF (export_line s) = false.
Proof.
  intros Hc Hd. unfold export_line.
  rewrite !has_char_append, number_to_string_digits, Hc, Hd. done.
Qed.

(** X7: when no category and no description of an exported record holds a
    line feed, the downloaded text splits at the line feeds into exactly one
    line per exported record, `id. [category] description`, in the order of
    the (filtered) collection. *)
Theorem textContent_lines showFavorites (scenes : list SceneConcept) :
  scenesToExport showFavorites scenes <> [] ->
  Forall (fun s => has_char LF (category s) = false /\
                   has_char LF (description s) = false)
    (scenesToExport showFavorites scenes) ->
  split_at LF (textContent showFavorites scenes)
  = map export_line (scenesToExport showFavorites scenes).
Proof.
  intros Hne Hall. unfold textContent. apply split_at_join.
  - by destruct (scenesToExport showFavorites scenes).
  - apply List.Forall_forall. intros line Hl.
    apply in_map_iff in Hl as (s & <- & Hs).
    rewrite List.Forall_forall in Hall. destruct (Hall s Hs).
    by apply export_line_one_line.
Qed.

Lemma textContent_lines_witness :
  scenesToExport false (map sample_scene (seq 1 2)) <> [] /\
  split_at LF (textContent false (map sample_scene (seq 1 2)))
  = ["1. [Neon] a rain-soaked arcade at night";
     "2. [Neon] a rain-soaked arcade at night"].
Proof.
  assert (scenesToExport false (map sample_scene (seq 1 2)) <> []) as H by done.
  split; [exact H|].
  apply (textContent_lines false (map sample_scene (seq 1 2)) H).
  repeat constructor.
Defined.

End ExportedList.

(** ** The chunks of the revised page loader *)

Section Chunks.
Import App.

Lemma slice_nat {A} (arr : list A) (a b : nat) :
  a <= b -> View.slice arr (Z.of_nat a) (Z.of_nat b) = take (b - a) (drop a arr).
Proof.
  intros Hab. unfold View.slice.
  destruct (Z.ltb_spec (Z.of_nat a) 0); [lia|].
  destruct (Z.ltb_spec (Z.of_nat b) 0); [lia|].
  destruct (le_lt_dec (length arr) a) as [Hge|Hlt].
  - rewrite !drop_ge by lia. by rewrite !take_nil.
  - replace (Z.to_nat (Z.min (Z.of_nat a) (Z.of_nat (length arr)))) with a by lia.
    apply list_eq. intros i. rewrite !lookup_take.
    repeat case_decide; try done; try lia.
    rewrite lookup_drop. symmetry. apply lookup_ge_None_2. lia.
Qed.

Lemma chunk_loop_spec (l : list SceneConcept) : forall fuel i,
  length l <= i + CHUNK_SIZE * fuel ->
  concat (chunk_loop fuel i l) = drop i l /\
  Forall (fun chunk => 1 <= length chunk <= CHUNK_SIZE) (chunk_loop fuel i l).
Proof.
  induction fuel as [|fuel IH]; intros i Hlen; simpl;
    change CHUNK_SIZE with 3 in *.
  - rewrite drop_ge by lia. done.
  - destruct (Nat.ltb_spec i (length l)) as [Hi|Hi].
    + destruct (IH (i + 3)) as [Hc Hf]; [lia|].
      rewrite slice_nat by lia. simpl concat. rewrite Hc.
      replace (i + 3 - i) with 3 by lia. split.
      * rewrite <- (take_drop 3 (drop i l)) at 2. by rewrite drop_drop.
      * constructor; [|done]. rewrite length_take, length_drop. lia.
    + rewrite drop_ge by lia. done.
Qed.

(** X8: the revised page loader cuts its snapshot into chunks of one to
    three scenes which, laid end to end, are the snapshot: every scene is
    visited once, in order, and at most three requests start together. *)
Theorem chunk_loop_covers (scenesToLoad : list SceneConcept) :
  concat (chunk_loop (length scenesToLoad) 0 scenesToLoad) = scenesToLoad /\
  Forall (fun chunk => 1 <= length chunk <= 3)
    (chunk_loop (length scenesToLoad) 0 scenesToLoad).
Proof.
  destruct (chunk_loop_spec scenesToLoad (length scenesToLoad) 0) as [H1 H2].
  - unfold CHUNK_SIZE. lia.
  - split; [by rewrite H1 | exact H2].
Qed.

End Chunks.

(** ** The controller: effects, credentials, failures *)

Section Controller.
Import Service App.

Opaque TOTAL_GOAL BATCH_SIZE.

Lemma generateStep_beside s : beside_loop (generateStep s) = beside_loop s.
Proof.
  unfold generateStep, batch_failed.
  destruct (negb _ || _ || _); [destruct (_ && _) | destruct (API_KEY _)]; done.
Qed.

Lemma render_beside prev s : beside_loop (render prev s) = beside_loop s.
Proof.
  unfold render. simpl. destruct (deps_eqb prev (deps s)); [done|].
  destruct (deps_eqb _ _); rewrite !generateStep_beside; [done|].
  change (beside_loop (cleanup (generateStep (cleanup s))))
    with (beside_loop (generateStep (cleanup s))).
  by rewrite generateStep_beside.
Qed.

(** X9: the chain of effect runs that follows a state change ends: after
    two runs of [generateStep] the dependencies of the effect are stable,
    and the effect has written nothing outside the loop state (the
    records, the view, the image calls and the clock are as the handler
    left them). *)
Theorem effects_settle n prev s :
  run_effects (2 + n) prev s = render prev s /\
  beside_loop (render prev s) = beside_loop s.
Proof. split; [apply run_effects_settled | apply render_beside]. Qed.

(** *** Without an API key *)

Lemma quiet_refl s : quiet_without_key s s.
Proof. intros H. done. Qed.

Lemma quiet_trans s1 s2 s3 :
  quiet_without_key s1 s2 -> quiet_without_key s2 s3 -> quiet_without_key s1 s3.
Proof.
  intros H12 H23 H. destruct (H12 H) as (K & ? & ? & ?).
  destruct (H23 K) as (? & ? & ? & ?). repeat split; [done | congruence | lia | lia].
Qed.

Lemma quiet_same s s' :
  API_KEY (host s') = API_KEY (host s) ->
  batchRequests s' = batchRequests s ->
  length (thumbCalls s') <= length (thumbCalls s) ->
  length (highResCalls s') <= length (highResCalls s) ->
  quiet_without_key s s'.
Proof. intros H1 H2 H3 H4 H. rewrite H1. done. Qed.

Lemma quiet_requestThumbnail owner k descr s :
  quiet_without_key s (requestThumbnail owner k descr s).
Proof.
  intros H. unfold requestThumbnail. simpl. rewrite H. simpl. done.
Qed.

Lemma quiet_handleGenerateImage owner k descr s :
  quiet_without_key s (handleGenerateImage owner k descr s).
Proof.
  unfold handleGenerateImage.
  destruct (hasSelectedApiKey (host s)); [apply quiet_requestThumbnail|].
  destruct (hasSelectedApiKey (host (openSelectKey s))).
  - eapply quiet_trans; [|apply quiet_requestThumbnail]. by apply quiet_same.
  - by apply quiet_same.
Qed.

Lemma quiet_chunk key chunk : forall s,
  quiet_without_key s
    (foldl (fun acc sc => handleGenerateImage (Some key) (id sc) (description sc) acc) s chunk).
Proof.
  induction chunk as [|sc chunk IH]; intros s; simpl; [apply quiet_refl|].
  eapply quiet_trans; [apply quiet_handleGenerateImage | apply IH].
Qed.

Lemma quiet_run_chunks key done chunks : forall s,
  quiet_without_key s (run_chunks key done chunks s).
Proof.
  induction chunks as [|chunk rest IH]; intros s; simpl.
  - destruct done; by apply quiet_same.
  - destruct (_ =? 0).
    + eapply quiet_trans; [apply quiet_chunk | apply IH].
    + eapply quiet_trans; [apply quiet_chunk | by apply quiet_same].
Qed.

Lemma quiet_owner_resumed owner s : quiet_without_key s (owner_resumed owner s).
Proof.
  destruct owner as [key|]; simpl; [|apply quiet_refl].
  destruct (resume_load key (pageLoads s)) as [loads [l|]].
  - eapply quiet_trans; [|apply quiet_run_chunks]. by apply quiet_same.
  - by apply quiet_same.
Qed.

Lemma quiet_thumbnail_settled c reply s :
  quiet_without_key s (thumbnail_settled c reply s).
Proof.
  unfold thumbnail_settled, thumbnail_failed.
  destruct (image_response reply) as [[url|]|msg]; try (by apply quiet_same).
  destruct (truthy_string (Some url)); by apply quiet_same.
Qed.

Lemma quiet_highres_settled sel reply s :
  quiet_without_key s (highres_settled sel reply s).
Proof.
  unfold highres_settled, highres_failed.
  destruct (image_response reply) as [[url|]|msg]; try (by apply quiet_same).
  destruct (truthy_string (Some url)); by apply quiet_same.
Qed.

Lemma quiet_handleGenerateHighRes s : quiet_without_key s (handleGenerateHighRes s).
Proof.
  assert (forall sel s0, quiet_without_key s0 (requestHighRes sel s0)) as Hreq.
  { intros sel s0 H. unfold requestHighRes, highres_failed. simpl. rewrite H. done. }
  unfold handleGenerateHighRes.
  destruct (selectedScene s) as [sel|]; [|apply quiet_refl].
  destruct (hasSelectedApiKey (host s)); [apply Hreq|].
  destruct (hasSelectedApiKey (host (openSelectKey s))).
  - eapply quiet_trans; [|apply Hreq]. by apply quiet_same.
  - by apply quiet_same.
Qed.

Lemma length_delete_le {A} (l : list A) k : length (delete k l) <= length l.
Proof. apply sublist_length, sublist_delete. Qed.

Lemma quiet_handle ev s :
  (forall h, ev <> HostChanges h) -> quiet_without_key s (handle ev s).
Proof.
  intros Hev. destruct ev; simpl.
  - unfold handleStart. destruct (negb _); [by apply quiet_same|].
    by destruct (_ =? 0); apply quiet_same.
  - by apply quiet_same.
  - by apply quiet_same.
  - destruct (batchCalls s !! k) as [c|]; [|apply quiet_refl].
    unfold batch_settled, batch_failed.
    destruct (batch_response _ _); destruct (isMounted c); simpl;
      try (by apply quiet_same).
    by destruct (stopRef s); apply quiet_same.
  - unfold tick. by destruct (isGenerating _); apply quiet_same.
  - by apply quiet_same.
  - by apply quiet_same.
  - by apply quiet_same.
  - by apply quiet_same.
  - apply quiet_handleGenerateImage.
  - unfold handleGeneratePageThumbnails. destruct (negb _); [by apply quiet_same|].
    eapply quiet_trans; [|apply quiet_run_chunks]. by apply quiet_same.
  - unfold handleGeneratePageThumbnails_chunked.
    set (gate := if hasSelectedApiKey (host s) then _ else _).
    assert (match gate with Some s1 => quiet_without_key s s1 | None => True end) as Hg.
    { subst gate. destruct (hasSelectedApiKey (host s)); [apply quiet_refl|].
      destruct silent; [done|].
      destruct (hasSelectedApiKey (host (openSelectKey s))); [|done].
      by apply quiet_same. }
    destruct gate as [s1|].
    + destruct (_ =? 0).
      * destruct silent; [done|].
        eapply quiet_trans; [exact Hg | by apply quiet_same].
      * eapply quiet_trans; [|apply quiet_run_chunks].
        eapply quiet_trans; [exact Hg|]. destruct silent; by apply quiet_same.
    + destruct silent; [apply quiet_refl | by apply quiet_same].
  - destruct (thumbCalls s !! k) as [c|]; [|apply quiet_refl].
    eapply quiet_trans; [|apply quiet_owner_resumed].
    eapply quiet_trans; [|apply quiet_thumbnail_settled].
    apply quiet_same; simpl; try done. apply length_delete_le.
  - by apply quiet_same.
  - by apply quiet_same.
  - apply quiet_handleGenerateHighRes.
  - destruct (highResCalls s !! k) as [sel|]; [|apply quiet_refl].
    eapply quiet_trans; [|apply quiet_highres_settled].
    apply quiet_same; simpl; try done. apply length_delete_le.
  - by destruct (Hev h).
Qed.

Lemma quiet_generateStep s : quiet_without_key s (generateStep s).
Proof.
  intros H. unfold generateStep, batch_failed. rewrite H.
  destruct (negb _ || _ || _); [destruct (_ && _)|]; done.
Qed.

Lemma quiet_render prev s : quiet_without_key s (render prev s).
Proof.
  unfold render. simpl. destruct (deps_eqb prev (deps s)); [apply quiet_refl|].
  assert (quiet_without_key s (generateStep (cleanup s))) as H1.
  { eapply quiet_trans; [|apply quiet_generateStep]. by apply quiet_same. }
  destruct (deps_eqb _ _); [done|].
  eapply quiet_trans; [exact H1|].
  eapply quiet_trans; [|apply quiet_generateStep]. by apply quiet_same.
Qed.

(** X10: while the environment holds no API key, no event (other than the
    host supplying one) sends a batch request or puts an image call in
    flight: every remote operation fails before its request. *)
Theorem no_key_no_request s evs :
  API_KEY (host s) = false ->
  let safe := List.filter (fun ev => match ev with HostChanges _ => false | _ => true end) evs in
  API_KEY (host (run s safe)) = false /\
  batchRequests (run s safe) = batchRequests s /\
  length (thumbCalls (run s safe)) <= length (thumbCalls s) /\
  length (highResCalls (run s safe)) <= length (highResCalls s).
Proof.
  intros Hkey safe. subst safe.
  assert (quiet_without_key s
            (run s (List.filter
                      (fun ev => match ev with HostChanges _ => false | _ => true end)
                      evs))) as H; [|by apply H].
  clear Hkey. revert s. induction evs as [|ev evs IH]; intros s; [apply quiet_refl|].
  simpl. destruct ev; simpl;
    try (eapply quiet_trans; [|apply IH]; unfold step;
         (eapply quiet_trans; [|apply quiet_render]); apply quiet_handle; done).
  apply IH.
Qed.

(** *** A failed batch *)

(** X11: when the answer to the call of the mounted closure makes
    [generateSceneBatch] throw (the remote call rejects, the text is not
    JSON, or the JSON is not an array), the run halts: the collection and
    the counters are untouched, the loop is off, the stop flag is set, the
    failure notice is the one notice added, and nothing sends a batch
    request until the next start: the failed batch is not retried. *)
Theorem failed_batch_halts s k c reply msg evs :
  batchCalls s !! k = Some c -> isMounted c = true ->
  batch_response (call_startId c) reply = Thrown msg ->
  let halted := step s (BatchSettles k reply) in
  let later := run halted (List.filter (fun ev => negb (is_start ev)) evs) in
  scenes halted = scenes s /\
  totalGenerated (stats halted) = totalGenerated (stats s) /\
  batchesCompleted (stats halted) = batchesCompleted (stats s) /\
  isGenerating (stats halted) = false /\
  stopRef halted = true /\
  toasts halted = toasts s ++ [failure_toast] /\
  batchRequests later = batchRequests s.
Proof.
  intros Hk Hm Hr halted later.
  set (h := handle (BatchSettles k reply) s).
  assert (h = batch_failed (setBatchCalls (delete k) s)) as Eh.
  { subst h. simpl. rewrite Hk. unfold batch_settled. by rewrite Hr, Hm. }
  assert (isGenerating (stats h) = false) as Hidle by (by rewrite Eh).
  assert (scenes halted = scenes h /\ stats halted = stats h /\
          stopRef halted = stopRef h /\ toasts halted = toasts h /\
          batchRequests halted = batchRequests h) as (A1 & A2 & A3 & A4 & A5).
  { subst halted. unfold step. fold h.
    destruct (render_idle (deps s) h Hidle) as [-> | ->]; done. }
  subst later. rewrite idle_run by (by rewrite A2).
  rewrite A1, A2, A3, A4, A5, Eh. done.
Qed.

Lemma failed_batch_halts_witness :
  batchCalls (run (initial ready_host) [Start 0]) !! 0 = Some (mkBatchCall 1 50 true) /\
  toasts (run (initial ready_host)
            [Start 0; BatchSettles 0 (Response (Some "oops") SyntaxError)])
  = toasts (run (initial ready_host) [Start 0]) ++ [failure_toast].
Proof.
  assert (batchCalls (run (initial ready_host) [Start 0]) !! 0
          = Some (mkBatchCall 1 50 true)) as H by reflexivity.
  split; [exact H|].
  exact (proj1 (proj2 (proj2 (proj2 (proj2 (proj2
    (failed_batch_halts (run (initial ready_host) [Start 0]) 0 _
       (Response (Some "oops") SyntaxError) "SyntaxError" [] H eq_refl eq_refl))))))).
Defined.

(** *** One closure at a time *)

Lemma mounted_calls_cleanup s : mounted_calls (cleanup s) = [].
Proof.
  unfold mounted_calls. simpl. induction (batchCalls s); simpl; done.
Qed.

Lemma mounted_calls_generateStep s :
  length (mounted_calls (generateStep s)) <= S (length (mounted_calls s)).
Proof.
  unfold generateStep, batch_failed, mounted_calls.
  destruct (negb _ || _ || _); [destruct (_ && _); simpl; lia|].
  destruct (API_KEY _); simpl; [|lia].
  rewrite List.filter_app, length_app. simpl. lia.
Qed.

Lemma mounted_calls_render prev s :
  length (mounted_calls s) <= 1 -> length (mounted_calls (render prev s)) <= 1.
Proof.
  intros H. destruct (render_cases prev s) as [[_ ->]|[_ (x & -> & _)]]; [done|].
  pose proof (mounted_calls_generateStep (cleanup x)) as Hs.
  by rewrite mounted_calls_cleanup in Hs.
Qed.

Lemma filter_delete_le {A} (f : A -> bool) (l : list A) : forall k,
  length (List.filter f (delete k l)) <= length (List.filter f l).
Proof.
  induction l as [|x l IH]; intros [|k]; simpl; try lia.
  - destruct (f x); simpl; lia.
  - specialize (IH k). destruct (f x); simpl; lia.
Qed.

Lemma mounted_calls_handle ev s :
  length (mounted_calls (handle ev s)) <= length (mounted_calls s).
Proof.
  destruct (loop_event ev) eqn:Hl.
  2:{ destruct (handle_same_ids ev s Hl) as [Hs _]. unfold loop_state in Hs.
      injection Hs as _ _ Hc _. unfold mounted_calls. by rewrite Hc. }
  unfold mounted_calls. destruct ev; try discriminate; simpl; try done.
  - unfold handleStart. destruct (negb _); [done|]. by destruct (_ =? 0).
  - destruct (batchCalls s !! k) as [c|]; [|done].
    unfold batch_settled, batch_failed.
    destruct (batch_response _ _); destruct (isMounted c); simpl;
      try apply filter_delete_le.
    destruct (stopRef s); apply filter_delete_le.
  - unfold tick. by destruct (isGenerating _).
Qed.

(** X12: at any time at most one batch call in flight belongs to a mounted
    closure; since only such a call can be applied, at most one pending
    answer can ever reach the collection, and its numbering starts at the
    present length plus one. *)
Theorem one_mounted_call h evs :
  let s := run (initial h) evs in
  length (mounted_calls s) <= 1 /\
  (forall c, In c (mounted_calls s) -> call_startId c = length (scenes s) + 1).
Proof.
  intros s. split.
  - subst s. generalize (initial h), (Nat.le_0_l 1 : length (mounted_calls (initial h)) <= 1).
    induction evs as [|ev evs IH]; intros s0 H0; simpl; [done|].
    apply IH. unfold step. apply mounted_calls_render.
    pose proof (mounted_calls_handle ev s0). lia.
  - pose proof (run_invariant evs _ (initial_invariant h)) as (_ & _ & Hm & _).
    intros c Hc. apply filter_In in Hc as [Hc Hmc].
    by destruct (Hm c Hc Hmc) as (_ & ? & _).
Qed.

(** *** The chain of batches *)

(** X13: mid-run below the goal, every batch that is applied and leaves
    the collection below the goal is followed at once by exactly one new
    request, numbered from the new length on and asking for
    [min(BATCH_SIZE, TOTAL_GOAL - length)] records; this holds also for a
    batch of zero records, after which the same request is sent again. *)
Theorem applied_batch_requests_next acc s reply :
  generating_at acc s -> succeeded reply = true ->
  acc + delivered reply < TOTAL_GOAL ->
  let s' := step s (BatchSettles 0 reply) in
  length (scenes s') = acc + delivered reply /\
  batchesCompleted (stats s') = batchesCompleted (stats s) + 1 /\
  batchRequests s' = batchRequests s + 1 /\
  batchCalls s'
  = [mkBatchCall (acc + delivered reply + 1)
       (Nat.min BATCH_SIZE (TOTAL_GOAL - (acc + delivered reply))) true].
Proof.
  intros (Hlen & Htot & Hstop & Hkey & Hcase) Hok Hbelow s'.
  destruct Hcase as [(Hlt & Hgen & c & Hcalls & Hmc) | (Hge & _)]; [|lia].
  destruct (succeeded_response (call_startId c) reply Hok) as [newBatch Hr].
  destruct (delivered_length _ _ _ Hr) as [Hd _]. rewrite Hd in *.
  subst s'. unfold step. simpl handle. rewrite Hcalls. simpl.
  unfold batch_settled. rewrite Hr, Hmc. simpl. rewrite Hstop. simpl.
  set (a := setStats _ _).
  assert (deps a <> deps s) as Hdeps.
  { subst a. unfold deps. simpl. intros [= ?]. lia. }
  assert (length (scenes a) = acc + length newBatch) as Hla
    by (subst a; simpl; rewrite length_app; lia).
  rewrite render_continue; try done; [|lia].
  rewrite Hla. subst a. simpl. rewrite Hcalls. simpl.
  repeat split; try done; lia.
Qed.

Lemma applied_batch_requests_next_witness :
  generating_at 0 (run (initial ready_host) [Start 0]) /\
  batchCalls (run (initial ready_host) [Start 0; BatchSettles 0 (answer [])])
  = [mkBatchCall 1 50 true].
Proof.
  assert (generating_at 0 (run (initial ready_host) [Start 0])) as H.
  { split; [reflexivity|]. split; [reflexivity|]. split; [reflexivity|].
    split; [reflexivity|]. left. split; [vm_compute; lia|].
    split; [reflexivity|]. by eexists. }
  split; [exact H|].
  assert (0 + delivered (answer []) < TOTAL_GOAL) as Hlt by (vm_compute; lia).
  exact (proj2 (proj2 (proj2
    (applied_batch_requests_next 0 _ (answer []) H eq_refl Hlt)))).
Defined.

(** *** Instant Load during a run *)

Lemma batches_of_goal : View.Math_ceil_quot TOTAL_GOAL BATCH_SIZE = 20.
Proof. vm_compute. reflexivity. Qed.

(** While the loop is off and stopped, a settling batch call changes
    neither the collection nor the counters and sends nothing. *)
Lemma settle_while_stopped s k reply :
  stopRef s = true -> isGenerating (stats s) = false ->
  scenes (step s (BatchSettles k reply)) = scenes s /\
  totalGenerated (stats (step s (BatchSettles k reply))) = totalGenerated (stats s) /\
  batchesCompleted (stats (step s (BatchSettles k reply))) = batchesCompleted (stats s) /\
  isGenerating (stats (step s (BatchSettles k reply))) = false /\
  batchRequests (step s (BatchSettles k reply)) = batchRequests s.
Proof.
  intros Hstop Hoff.
  set (g := handle (BatchSettles k reply) s).
  assert (scenes g = scenes s /\
          totalGenerated (stats g) = totalGenerated (stats s) /\
          batchesCompleted (stats g) = batchesCompleted (stats s) /\
          isGenerating (stats g) = false /\
          batchRequests g = batchRequests s) as (B1 & B2 & B3 & B4 & B5).
  { subst g. simpl. destruct (batchCalls s !! k) as [c|]; [|done].
    unfold batch_settled, batch_failed. simpl. rewrite Hstop.
    destruct (batch_response _ _); destruct (isMounted c); simpl; done. }
  unfold step. fold g. clearbody g.
  destruct (render_idle (deps s) g B4) as [-> | ->];
    (split; [exact B1|]); (split; [exact B2|]); (split; [exact B3|]);
    (split; [exact B4 | exact B5]).
Qed.

Lemma handleInstantLoad_result now rand s :
  scenes (step s (InstantLoad now rand)) = generateCuratedBatch 1 TOTAL_GOAL rand /\
  totalGenerated (stats (step s (InstantLoad now rand))) = TOTAL_GOAL /\
  batchesCompleted (stats (step s (InstantLoad now rand))) = 20 /\
  isGenerating (stats (step s (InstantLoad now rand))) = false /\
  stopRef (step s (InstantLoad now rand)) = true /\
  batchRequests (step s (InstantLoad now rand)) = batchRequests s.
Proof.
  set (h := handle (InstantLoad now rand) s).
  assert (scenes h = generateCuratedBatch 1 TOTAL_GOAL rand /\
          totalGenerated (stats h) = TOTAL_GOAL /\
          batchesCompleted (stats h) = 20 /\
          isGenerating (stats h) = false /\
          stopRef h = true /\
          batchRequests h = batchRequests s) as (A1 & A2 & A3 & A4 & A5 & A6).
  { subst h. unfold handle, handleInstantLoad. cbn [scenes stats stopRef batchRequests
      setScenes setStats setStopRef addToast totalGenerated batchesCompleted isGenerating].
    rewrite length_generateCuratedBatch, batches_of_goal. repeat split; reflexivity. }
  unfold step. fold h. clearbody h.
  destruct (render_idle (deps s) h A4) as [-> | ->];
    (split; [exact A1|]); (split; [exact A2|]); (split; [exact A3|]);
    (split; [exact A4|]); (split; [exact A5 | exact A6]).
Qed.

(** X14: Instant Load ends an AI run for good: it leaves the 1000 local
    records with the counters at 1000 records and 20 batches and the loop
    off, and the answer of a batch call that was in flight, arriving later,
    changes neither the collection nor the counters and sends no request. *)
Theorem instant_load_cancels_run s now rand k reply :
  let loaded := step s (InstantLoad now rand) in
  let settled := step loaded (BatchSettles k reply) in
  scenes loaded = generateCuratedBatch 1 1000 rand /\
  (totalGenerated (stats loaded) = 1000 /\ batchesCompleted (stats loaded) = 20 /\
   isGenerating (stats loaded) = false) /\
  scenes settled = scenes loaded /\
  (totalGenerated (stats settled) = 1000 /\ batchesCompleted (stats settled) = 20 /\
   isGenerating (stats settled) = false) /\
  batchRequests settled = batchRequests s.
Proof.
  intros loaded settled. rewrite <- TOTAL_GOAL_eq.
  destruct (handleInstantLoad_result now rand s) as (A1 & A2 & A3 & A4 & A5 & A6).
  fold loaded in A1, A2, A3, A4, A5, A6.
  destruct (settle_while_stopped loaded k reply A5 A4) as (B1 & B2 & B3 & B4 & B5).
  fold settled in B1, B2, B3, B4, B5. clearbody settled. clearbody loaded.
  rewrite B1, B2, B3, B4, B5, A1, A2, A3, A4, A6. repeat split; reflexivity.
Qed.

(** *** A settled thumbnail call *)

Lemma image_url_truthy reply url :
  image_response reply = Fulfilled (Some url) -> truthy_string (Some url) = true.
Proof.
  destruct reply as [msg|parts]; simpl; [done|]. intros [= H].
  destruct (first_image_Some _ _ H) as (? & ? & ? & ? & ? & _ & _ & _ & _ & ->).
  reflexivity.
Qed.

(** X15: when the thumbnail call of a card settles, whatever the outcome,
    the records with another id are untouched and a record with the id of
    the call is no longer marked as generating and keeps every other field
    but the thumbnail address, which is replaced by the returned address
    when there is one and is otherwise left as it was: a failure never
    clears an address. *)
Theorem thumbnail_settles s j c reply :
  thumbCalls s !! j = Some c -> thumb_owner c = None ->
  let s' := step s (ThumbnailSettles j reply) in
  forall i,
    scenes s' !! i
    = (fun sc =>
         if id sc =? thumb_id c then
           {| id := id sc; description := description sc; category := category sc;
              lighting := lighting sc; camera := camera sc;
              thumbnailUrl :=
                match generateSceneThumbnail true reply with
                | Fulfilled (Some url) => Some url
                | _ => thumbnailUrl sc
                end;
              isGeneratingThumbnail := Some false;
              highResUrl := highResUrl sc;
              isGeneratingHighRes := isGeneratingHighRes sc;
              isFavorite := isFavorite sc |}
         else sc) <$> scenes s !! i.
Proof.
  intros Hj Ho s' i. subst s'. unfold step. rewrite render_scenes.
  cbn [handle]. rewrite Hj, Ho. cbn [owner_resumed].
  unfold thumbnail_settled, thumbnail_failed, generateSceneThumbnail. cbn [negb].
  destruct (image_response reply) as [[url|]|msg] eqn:E.
  - rewrite (image_url_truthy _ _ E).
    cbn [scenes addToast setScenes setThumbCalls]. by rewrite update_by_id_lookup.
  - cbn [scenes addToast setScenes setThumbCalls]. by rewrite update_by_id_lookup.
  - cbn [scenes addToast setScenes setThumbCalls]. by rewrite update_by_id_lookup.
Qed.

Lemma thumbnail_settles_witness :
  thumbCalls (run (initial ready_host)
                [Start 0; BatchSettles 0 (answer [sample_item "a"]); Stop;
                 GenerateImage 1 "a"]) !! 0
  = Some (mkThumbCall 1 "a" None) /\
  scenes (step (run (initial ready_host)
                  [Start 0; BatchSettles 0 (answer [sample_item "a"]); Stop;
                   GenerateImage 1 "a"])
            (ThumbnailSettles 0 (ImageRejected "503"))) !! 0
  = Some (with_isGeneratingThumbnail false (Service.with_id (sample_item "a") 1)).
Proof.
  split; [reflexivity|].
  etrans;
    [exact (thumbnail_settles
              (run (initial ready_host)
                 [Start 0; BatchSettles 0 (answer [sample_item "a"]); Stop;
                  GenerateImage 1 "a"])
              0 (mkThumbCall 1 "a" None) (ImageRejected "503") eq_refl eq_refl 0)|].
  vm_compute. reflexivity.
Defined.

(** *** Paging *)

(** X16: a paging button that the page offers, pressed on a page within
    the page count, leads to a page within the page count: [Previous] stops
    at page 1 and [Next] at the last page. *)
Theorem paging_stays_in_range s ev :
  ev = PreviousPage \/ ev = NextPage ->
  offered s ev = true ->
  currentPage s <= View.totalPages (View.filteredScenes (showFavorites s) (scenes s)) ->
  let s' := step s ev in
  scenes s' = scenes s /\ showFavorites s' = showFavorites s /\
  1 <= currentPage s'
    <= View.totalPages (View.filteredScenes (showFavorites s') (scenes s')) /\
  (ev = PreviousPage -> currentPage s' = Nat.max 1 (currentPage s - 1)) /\
  (ev = NextPage -> currentPage s' = currentPage s + 1).
Proof.
  intros Hev Hoff Hin s'.
  assert (beside_loop s' = beside_loop (handle ev s)) as Hb
    by (subst s'; unfold step; apply render_beside).
  injection Hb as Hsc Hfav _ Hpage _ _ _ _ _ _ _.
  rewrite Hsc, Hfav, Hpage.
  destruct Hev as [-> | ->]; simpl in *;
    apply andb_true_iff in Hoff as [Hoff Hcur];
    apply andb_true_iff in Hoff as [_ Hpages];
    apply Nat.ltb_lt in Hpages; apply negb_true_iff, Nat.eqb_neq in Hcur.
  - repeat split; try done; lia.
  - repeat split; try done; lia.
Qed.

Lemma paging_stays_in_range_witness :
  currentPage (step (setScenes (fun _ => map sample_scene (seq 1 25)) (initial ready_host))
                 NextPage) = 2.
Proof.
  refine (proj2 (proj2 (proj2 (proj2
    (paging_stays_in_range
       (setScenes (fun _ => map sample_scene (seq 1 25)) (initial ready_host))
       NextPage (or_intror eq_refl) _ _)))) eq_refl).
  - reflexivity.
  - vm_compute. lia.
Defined.

(** *** The clock *)

Lemma render_clock prev s :
  elapsedTime (stats (render prev s)) = elapsedTime (stats s).
Proof. pose proof (render_beside prev s) as H. by injection H. Qed.

(** X17: the elapsed time advances by one on a tick while the loop is on,
    is set to zero by a start on the empty collection and to one by Instant
    Load, and is left alone by everything else: ticks while the loop is off,
    stops, settled calls, and every action on the view and the images. *)
Theorem elapsedTime_changes s ev :
  elapsedTime (stats (step s ev))
  = match ev with
    | Tick =>
        if isGenerating (stats s) then elapsedTime (stats s) + 1
        else elapsedTime (stats s)
    | Start _ =>
        if hasSelectedApiKey (host s) && (length (scenes s) =? 0) then 0
        else elapsedTime (stats s)
    | InstantLoad _ _ => 1
    | _ => elapsedTime (stats s)
    end.
Proof.
  unfold step. rewrite render_clock.
  destruct (loop_event ev) eqn:Hl.
  - destruct ev; try discriminate; simpl; try done.
    + unfold handleStart. destruct (hasSelectedApiKey _); simpl; [|done].
      by destruct (_ =? 0).
    + destruct (batchCalls s !! k) as [c|]; [|done].
      unfold batch_settled, batch_failed.
      destruct (batch_response _ _); destruct (isMounted c); simpl; try done.
      by destruct (stopRef s).
    + unfold tick. by destruct (isGenerating _).
  - destruct (handle_same_ids ev s Hl) as [Hs _]. unfold loop_state in Hs.
    injection Hs as -> _ _ _. by destruct ev.
Qed.

End Controller.

Transparent TOTAL_GOAL BATCH_SIZE.

(** ** The page loader of [App.tsx] *)

Section PageLoader.
Import Service App.

(** X18: with a selected key and an API key, the page loader starts with
    exactly one thumbnail call, for the first displayed record whose
    thumbnail is missing or a placeholder, and none when the page has no
    such record: it never has more than one call of its own in flight at the
    start. The record is marked as generating; records already marked are
    not skipped. *)
Theorem page_loader_first_call s :
  hasSelectedApiKey (host s) = true -> API_KEY (host s) = true ->
  let s' := step s GeneratePageThumbnails in
  thumbCalls s'
  = thumbCalls s ++
    match List.filter needs_visual (displayed s) with
    | [] => []
    | scene :: _ => [mkThumbCall (id scene) (description scene) (Some (pageLoadsStarted s))]
    end /\
  scenes s'
  = match List.filter needs_visual (displayed s) with
    | [] => scenes s
    | scene :: _ => update_by_id (id scene) (with_isGeneratingThumbnail true) (scenes s)
    end.
Proof.
  intros Hsel Hkey s'.
  assert (beside_loop s' = beside_loop (handle GeneratePageThumbnails s)) as Hb
    by (subst s'; unfold step; apply render_beside).
  injection Hb as Hsc _ _ _ _ Hcalls _ _ _ _ _. rewrite Hsc, Hcalls. clear Hsc Hcalls.
  simpl. unfold handleGeneratePageThumbnails. rewrite Hsel. simpl.
  destruct (List.filter needs_visual (displayed s)) as [|scene rest]; simpl.
  - by rewrite app_nil_r.
  - unfold handleGenerateImage. simpl. rewrite Hsel.
    unfold requestThumbnail. simpl. rewrite Hkey. simpl.
    rewrite length_app. simpl.
    replace (length (thumbCalls s) + 1 - length (thumbCalls s)) with 1 by lia.
    simpl. done.
Qed.

Lemma page_loader_first_call_witness :
  thumbCalls (step (setScenes (fun _ => map sample_scene (seq 1 3)) (initial ready_host))
                GeneratePageThumbnails)
  = [mkThumbCall 1 "a rain-soaked arcade at night" (Some 0)].
Proof.
  exact (proj1 (page_loader_first_call
                  (setScenes (fun _ => map sample_scene (seq 1 3)) (initial ready_host))
                  eq_refl eq_refl)).
Defined.

End PageLoader.

Lemma no_key_no_request_witness :
  App.API_KEY (App.host (App.initial (App.mkHost true true false))) = false /\
  App.batchRequests
    (App.run (App.initial (App.mkHost true true false))
       [App.Start 0; App.GenerateImage 1 "a"; App.GeneratePageThumbnails]) = 0.
Proof.
  split; [reflexivity|].
  pose proof (no_key_no_request (App.initial (App.mkHost true true false))
                [App.Start 0; App.GenerateImage 1 "a"; App.GeneratePageThumbnails]
                eq_refl) as H.
  vm_compute in H. vm_compute. exact (proj1 (proj2 H)).
Defined.
